(** * AWS IoT Device Defender topic codec: [Defender_GetTopic] and
    [Defender_MatchTopic] of [source/defender.c].

    The C functions are embedded as Rocq functions in an option monad:
    [None] stands for a call that does not return normally (a failed
    [assert], or an access outside the object a pointer points into, which
    C leaves undefined).  A pointer value carries the object it points
    into together with its offset, so that reads through [const char *]
    are plain list accesses; a function that writes through a pointer
    returns the contents of the written object after the write. *)

From Stdlib Require Import String Ascii ZArith List Bool Lia.
Import ListNotations.
Local Open Scope Z_scope.

(** ** Control: the monad of calls that may fail to return *)

Notation "x <- c ;; k" :=
  (match c with Some x => k | None => None end)
  (at level 61, c at next level, right associativity).
Notation "' pat <- c ;; k" :=
  (match c with Some pat => k | None => None end)
  (at level 61, pat pattern, c at next level, right associativity).

(** [assert( b )] of <assert.h>. *)
Definition c_assert (b : bool) : option unit :=
  if b then Some tt else None.

(** ** Machine integers: [uint16_t] and [uint32_t] as Z with wrap-around *)

Definition u16 (x : Z) : Z := x mod 2 ^ 16.
Definition u32 (x : Z) : Z := x mod 2 ^ 32.

Definition UINT16_MAX : Z := 65535.
Definition UINT32_MAX : Z := 4294967295.

(** ** Memory: character objects and pointers into them *)

(** A [char *] is [NULL] or points [ofs] bytes into the object [obj]. *)
Inductive ptr : Type :=
| NULL
| Ptr (obj : list ascii) (ofs : Z).

Definition is_null (p : ptr) : bool :=
  match p with NULL => true | Ptr _ _ => false end.

(** A pointer to a scalar ([uint32_t *], [DefenderTopic_t *], ...) is
    [None] for [NULL] and [Some v] when it points to a slot holding [v]. *)
Definition slot_is_null {A : Type} (p : option A) : bool :=
  match p with None => true | Some _ => false end.

(** [*p = v]. *)
Definition slot_store {A : Type} (p : option A) (v : A) : option (option A) :=
  match p with None => None | Some _ => Some (Some v) end.

(** The bytes [ofs .. ofs + n) lie inside [obj]. *)
Definition in_bounds (obj : list ascii) (ofs n : Z) : bool :=
  (0 <=? ofs) && (0 <=? n) && (ofs + n <=? Z.of_nat (length obj)).

(** [&( p[ k ] )]: the address may be one past the end of the object. *)
Definition index_addr (p : ptr) (k : Z) : option ptr :=
  match p with
  | NULL => None
  | Ptr obj ofs => if in_bounds obj (ofs + k) 0 then Some (Ptr obj (ofs + k)) else None
  end.

(** [p[ i ]], read. *)
Definition load (p : ptr) (i : Z) : option ascii :=
  match p with
  | NULL => None
  | Ptr obj ofs =>
      if in_bounds obj (ofs + i) 1 then nth_error obj (Z.to_nat (ofs + i)) else None
  end.

(** The [n] bytes at [p]. *)
Definition load_bytes (p : ptr) (n : Z) : option (list ascii) :=
  match p with
  | NULL => None
  | Ptr obj ofs =>
      if in_bounds obj ofs n
      then Some (firstn (Z.to_nat n) (skipn (Z.to_nat ofs) obj))
      else None
  end.

(** Overwrite the bytes at [p] with [bs]; the result is the whole object
    after the write. *)
Definition store_bytes (p : ptr) (bs : list ascii) : option (list ascii) :=
  match p with
  | NULL => None
  | Ptr obj ofs =>
      if in_bounds obj ofs (Z.of_nat (length bs))
      then Some (firstn (Z.to_nat ofs) obj ++ bs
                 ++ skipn (Z.to_nat ofs + length bs) obj)
      else None
  end.

(** The pointer [p] after its object has taken the contents [o]. *)
Definition viewing (p : ptr) (o : list ascii) : ptr :=
  match p with NULL => NULL | Ptr _ ofs => Ptr o ofs end.

(** Byte-wise comparison as [memcmp] does it, on [unsigned char] values. *)
Fixpoint compare_bytes (a b : list ascii) : Z :=
  match a, b with
  | x :: a', y :: b' =>
      if (x =? y)%char then compare_bytes a' b'
      else if (N_of_ascii x <? N_of_ascii y)%N then -1 else 1
  | _, _ => 0
  end.

(** [memcmp( p, q, n )] of <string.h>. *)
Definition memcmp (p q : ptr) (n : Z) : option Z :=
  a <- load_bytes p n ;;
  b <- load_bytes q n ;;
  Some (compare_bytes a b).

(** [memcpy( dst, src, n )] of <string.h>; the source is read from an
    object other than the destination.  The result is the destination
    object after the copy. *)
Definition memcpy (dst src : ptr) (n : Z) : option (list ascii) :=
  bs <- load_bytes src n ;;
  store_bytes dst bs.

(** A string literal: an array of its characters and a terminating NUL. *)
Definition literal_bytes (s : string) : list ascii :=
  list_ascii_of_string s ++ [zero].
Definition literal (s : string) : ptr := Ptr (literal_bytes s) 0.
Definition sizeof_literal (s : string) : Z := Z.of_nat (length (literal_bytes s)).

(** ** defender.h *)

Inductive DefenderStatus_t : Type :=
| DefenderError
| DefenderSuccess
| DefenderNoMatch
| DefenderBadParameter
| DefenderBufferTooSmall.

Definition status_eqb (a b : DefenderStatus_t) : bool :=
  match a, b with
  | DefenderError, DefenderError
  | DefenderSuccess, DefenderSuccess
  | DefenderNoMatch, DefenderNoMatch
  | DefenderBadParameter, DefenderBadParameter
  | DefenderBufferTooSmall, DefenderBufferTooSmall => true
  | _, _ => false
  end.

Inductive DefenderTopic_t : Type :=
| DefenderInvalidTopic
| DefenderJsonReportPublish
| DefenderJsonReportAccepted
| DefenderJsonReportRejected
| DefenderCborReportPublish
| DefenderCborReportAccepted
| DefenderCborReportRejected
| DefenderMaxTopic.

(** The integer value of each enumerator ([DefenderInvalidTopic = -1]). *)
Definition topic_value (api : DefenderTopic_t) : Z :=
  match api with
  | DefenderInvalidTopic => -1
  | DefenderJsonReportPublish => 0
  | DefenderJsonReportAccepted => 1
  | DefenderJsonReportRejected => 2
  | DefenderCborReportPublish => 3
  | DefenderCborReportAccepted => 4
  | DefenderCborReportRejected => 5
  | DefenderMaxTopic => 6
  end.

Definition STRING_LITERAL_LENGTH (s : string) : Z := sizeof_literal s - 1.

Definition DEFENDER_THINGNAME_MAX_LENGTH : Z := 128.

Definition DEFENDER_API_PREFIX : string := "$aws/things/".
Definition DEFENDER_API_PREFIX_LENGTH : Z := STRING_LITERAL_LENGTH DEFENDER_API_PREFIX.

Definition DEFENDER_API_BRIDGE : string := "/defender/metrics/".
Definition DEFENDER_API_BRIDGE_LENGTH : Z := STRING_LITERAL_LENGTH DEFENDER_API_BRIDGE.

Definition DEFENDER_API_JSON_REPORT_FORMAT : string := "json".
Definition DEFENDER_API_JSON_REPORT_FORMAT_LENGTH : Z :=
  STRING_LITERAL_LENGTH DEFENDER_API_JSON_REPORT_FORMAT.

Definition DEFENDER_API_CBOR_REPORT_FORMAT : string := "cbor".
Definition DEFENDER_API_CBOR_REPORT_FORMAT_LENGTH : Z :=
  STRING_LITERAL_LENGTH DEFENDER_API_CBOR_REPORT_FORMAT.

Definition DEFENDER_API_ACCEPTED_SUFFIX : string := "/accepted".
Definition DEFENDER_API_ACCEPTED_SUFFIX_LENGTH : Z :=
  STRING_LITERAL_LENGTH DEFENDER_API_ACCEPTED_SUFFIX.

Definition DEFENDER_API_REJECTED_SUFFIX : string := "/rejected".
Definition DEFENDER_API_REJECTED_SUFFIX_LENGTH : Z :=
  STRING_LITERAL_LENGTH DEFENDER_API_REJECTED_SUFFIX.

Definition DEFENDER_API_NULL_SUFFIX_LENGTH : Z := 0.

Definition DEFENDER_API_COMMON_LENGTH
    (thingNameLength reportFormatLength suffixLength : Z) : Z :=
  DEFENDER_API_PREFIX_LENGTH + thingNameLength + DEFENDER_API_BRIDGE_LENGTH
  + reportFormatLength + suffixLength.

Definition DEFENDER_API_JSON_REPORT_PUBLISH_LENGTH (thingNameLength : Z) : Z :=
  DEFENDER_API_COMMON_LENGTH thingNameLength
    DEFENDER_API_JSON_REPORT_FORMAT_LENGTH DEFENDER_API_NULL_SUFFIX_LENGTH.
Definition DEFENDER_API_JSON_REPORT_ACCEPTED_LENGTH (thingNameLength : Z) : Z :=
  DEFENDER_API_COMMON_LENGTH thingNameLength
    DEFENDER_API_JSON_REPORT_FORMAT_LENGTH DEFENDER_API_ACCEPTED_SUFFIX_LENGTH.
Definition DEFENDER_API_JSON_REPORT_REJECTED_LENGTH (thingNameLength : Z) : Z :=
  DEFENDER_API_COMMON_LENGTH thingNameLength
    DEFENDER_API_JSON_REPORT_FORMAT_LENGTH DEFENDER_API_REJECTED_SUFFIX_LENGTH.
Definition DEFENDER_API_CBOR_REPORT_PUBLISH_LENGTH (thingNameLength : Z) : Z :=
  DEFENDER_API_COMMON_LENGTH thingNameLength
    DEFENDER_API_CBOR_REPORT_FORMAT_LENGTH DEFENDER_API_NULL_SUFFIX_LENGTH.
Definition DEFENDER_API_CBOR_REPORT_ACCEPTED_LENGTH (thingNameLength : Z) : Z :=
  DEFENDER_API_COMMON_LENGTH thingNameLength
    DEFENDER_API_CBOR_REPORT_FORMAT_LENGTH DEFENDER_API_ACCEPTED_SUFFIX_LENGTH.
Definition DEFENDER_API_CBOR_REPORT_REJECTED_LENGTH (thingNameLength : Z) : Z :=
  DEFENDER_API_COMMON_LENGTH thingNameLength
    DEFENDER_API_CBOR_REPORT_FORMAT_LENGTH DEFENDER_API_REJECTED_SUFFIX_LENGTH.

Definition DEFENDER_API_MAX_LENGTH (thingNameLength : Z) : Z :=
  DEFENDER_API_CBOR_REPORT_ACCEPTED_LENGTH thingNameLength.

(** The topic string macros: adjacent string literals, concatenated. *)
Definition DEFENDER_API_NULL_SUFFIX : string := EmptyString.

Definition DEFENDER_API_COMMON (thingName reportFormat suffix : string) : string :=
  (DEFENDER_API_PREFIX ++ thingName ++ DEFENDER_API_BRIDGE
   ++ reportFormat ++ suffix)%string.

Definition DEFENDER_API_JSON_REPORT_PUBLISH (thingName : string) : string :=
  DEFENDER_API_COMMON thingName
    DEFENDER_API_JSON_REPORT_FORMAT DEFENDER_API_NULL_SUFFIX.
Definition DEFENDER_API_JSON_REPORT_ACCEPTED (thingName : string) : string :=
  DEFENDER_API_COMMON thingName
    DEFENDER_API_JSON_REPORT_FORMAT DEFENDER_API_ACCEPTED_SUFFIX.
Definition DEFENDER_API_JSON_REPORT_REJECTED (thingName : string) : string :=
  DEFENDER_API_COMMON thingName
    DEFENDER_API_JSON_REPORT_FORMAT DEFENDER_API_REJECTED_SUFFIX.
Definition DEFENDER_API_CBOR_REPORT_PUBLISH (thingName : string) : string :=
  DEFENDER_API_COMMON thingName
    DEFENDER_API_CBOR_REPORT_FORMAT DEFENDER_API_NULL_SUFFIX.
Definition DEFENDER_API_CBOR_REPORT_ACCEPTED (thingName : string) : string :=
  DEFENDER_API_COMMON thingName
    DEFENDER_API_CBOR_REPORT_FORMAT DEFENDER_API_ACCEPTED_SUFFIX.
Definition DEFENDER_API_CBOR_REPORT_REJECTED (thingName : string) : string :=
  DEFENDER_API_COMMON thingName
    DEFENDER_API_CBOR_REPORT_FORMAT DEFENDER_API_REJECTED_SUFFIX.

(** ** defender.c: the tables *)

Definition defenderApi : list DefenderTopic_t :=
  [ DefenderJsonReportPublish;
    DefenderJsonReportAccepted;
    DefenderJsonReportRejected;
    DefenderCborReportPublish;
    DefenderCborReportAccepted;
    DefenderCborReportRejected ].

(** Adjacent string literals are concatenated by the compiler. *)
Definition defenderApiTopic : list string :=
  [ DEFENDER_API_JSON_REPORT_FORMAT;
    DEFENDER_API_JSON_REPORT_FORMAT ++ DEFENDER_API_ACCEPTED_SUFFIX;
    DEFENDER_API_JSON_REPORT_FORMAT ++ DEFENDER_API_REJECTED_SUFFIX;
    DEFENDER_API_CBOR_REPORT_FORMAT;
    DEFENDER_API_CBOR_REPORT_FORMAT ++ DEFENDER_API_ACCEPTED_SUFFIX;
    DEFENDER_API_CBOR_REPORT_FORMAT ++ DEFENDER_API_REJECTED_SUFFIX ]%string.

Definition defenderApiTopicLength : list Z :=
  [ u16 DEFENDER_API_JSON_REPORT_FORMAT_LENGTH;
    u16 (DEFENDER_API_JSON_REPORT_FORMAT_LENGTH + DEFENDER_API_ACCEPTED_SUFFIX_LENGTH);
    u16 (DEFENDER_API_JSON_REPORT_FORMAT_LENGTH + DEFENDER_API_REJECTED_SUFFIX_LENGTH);
    u16 DEFENDER_API_CBOR_REPORT_FORMAT_LENGTH;
    u16 (DEFENDER_API_CBOR_REPORT_FORMAT_LENGTH + DEFENDER_API_ACCEPTED_SUFFIX_LENGTH);
    u16 (DEFENDER_API_CBOR_REPORT_FORMAT_LENGTH + DEFENDER_API_REJECTED_SUFFIX_LENGTH) ].

(** ** defender.c: the static helpers *)

Definition valid_api (api : DefenderTopic_t) : bool :=
  (topic_value DefenderInvalidTopic <? topic_value api)
  && (topic_value api <? topic_value DefenderMaxTopic).

Definition getTopicLength (thingNameLength : Z) (api : DefenderTopic_t) : option Z :=
  let topicLength := 0 in
  _ <- c_assert (negb (thingNameLength =? 0)
                 && (thingNameLength <=? DEFENDER_THINGNAME_MAX_LENGTH)) ;;
  _ <- c_assert (valid_api api) ;;
  let topicLength :=
    match api with
    | DefenderJsonReportPublish =>
        u32 (DEFENDER_API_JSON_REPORT_PUBLISH_LENGTH thingNameLength)
    | DefenderJsonReportAccepted =>
        u32 (DEFENDER_API_JSON_REPORT_ACCEPTED_LENGTH thingNameLength)
    | DefenderJsonReportRejected =>
        u32 (DEFENDER_API_JSON_REPORT_REJECTED_LENGTH thingNameLength)
    | DefenderCborReportPublish =>
        u32 (DEFENDER_API_CBOR_REPORT_PUBLISH_LENGTH thingNameLength)
    | DefenderCborReportAccepted =>
        u32 (DEFENDER_API_CBOR_REPORT_ACCEPTED_LENGTH thingNameLength)
    | _ (* case DefenderCborReportRejected: default: *) =>
        u32 (DEFENDER_API_CBOR_REPORT_REJECTED_LENGTH thingNameLength)
    end in
  Some topicLength.

(** The result is the object [pBuffer] points into, after the writes. *)
Definition writeFormatAndSuffix (pBuffer : ptr) (api : DefenderTopic_t)
  : option (list ascii) :=
  _ <- c_assert (negb (is_null pBuffer)) ;;
  _ <- c_assert (valid_api api) ;;
  match api with
  | DefenderJsonReportPublish =>
      memcpy pBuffer (literal DEFENDER_API_JSON_REPORT_FORMAT)
        DEFENDER_API_JSON_REPORT_FORMAT_LENGTH
  | DefenderJsonReportAccepted =>
      o <- memcpy pBuffer (literal DEFENDER_API_JSON_REPORT_FORMAT)
             DEFENDER_API_JSON_REPORT_FORMAT_LENGTH ;;
      d <- index_addr (viewing pBuffer o) DEFENDER_API_JSON_REPORT_FORMAT_LENGTH ;;
      memcpy d (literal DEFENDER_API_ACCEPTED_SUFFIX)
        DEFENDER_API_ACCEPTED_SUFFIX_LENGTH
  | DefenderJsonReportRejected =>
      o <- memcpy pBuffer (literal DEFENDER_API_JSON_REPORT_FORMAT)
             DEFENDER_API_JSON_REPORT_FORMAT_LENGTH ;;
      d <- index_addr (viewing pBuffer o) DEFENDER_API_JSON_REPORT_FORMAT_LENGTH ;;
      memcpy d (literal DEFENDER_API_REJECTED_SUFFIX)
        DEFENDER_API_REJECTED_SUFFIX_LENGTH
  | DefenderCborReportPublish =>
      memcpy pBuffer (literal DEFENDER_API_CBOR_REPORT_FORMAT)
        DEFENDER_API_CBOR_REPORT_FORMAT_LENGTH
  | DefenderCborReportAccepted =>
      o <- memcpy pBuffer (literal DEFENDER_API_CBOR_REPORT_FORMAT)
             DEFENDER_API_CBOR_REPORT_FORMAT_LENGTH ;;
      d <- index_addr (viewing pBuffer o) DEFENDER_API_CBOR_REPORT_FORMAT_LENGTH ;;
      memcpy d (literal DEFENDER_API_ACCEPTED_SUFFIX)
        DEFENDER_API_ACCEPTED_SUFFIX_LENGTH
  | _ (* case DefenderCborReportRejected: default: *) =>
      o <- memcpy pBuffer (literal DEFENDER_API_CBOR_REPORT_FORMAT)
             DEFENDER_API_CBOR_REPORT_FORMAT_LENGTH ;;
      d <- index_addr (viewing pBuffer o) DEFENDER_API_CBOR_REPORT_FORMAT_LENGTH ;;
      memcpy d (literal DEFENDER_API_REJECTED_SUFFIX)
        DEFENDER_API_REJECTED_SUFFIX_LENGTH
  end.

Definition matchPrefix (pRemainingTopic : ptr) (remainingTopicLength : Z)
  : option DefenderStatus_t :=
  let ret := DefenderNoMatch in
  _ <- c_assert (negb (is_null pRemainingTopic)) ;;
  if DEFENDER_API_PREFIX_LENGTH <=? remainingTopicLength then
    c <- memcmp pRemainingTopic (literal DEFENDER_API_PREFIX) DEFENDER_API_PREFIX_LENGTH ;;
    if c =? 0 then Some DefenderSuccess else Some ret
  else Some ret.

(** The [for] loop of [extractThingNameLength], entered with the value
    [i] of the counter; the result is the value of [i] when the loop is
    left.  [fuel] bounds the number of iterations still to run, and the
    result is [None] when it does not suffice. *)
Fixpoint findSlash (fuel : nat) (pRemainingTopic : ptr)
    (remainingTopicLength i : Z) : option Z :=
  if i <? remainingTopicLength then
    match fuel with
    | O => None
    | S fuel' =>
        c <- load pRemainingTopic i ;;
        if (c =? "/")%char then Some i
        else findSlash fuel' pRemainingTopic remainingTopicLength (u16 (i + 1))
    end
  else Some i.

(** [pOutThingNameLength] is the slot the length is written to; the
    result carries the slot after the call.  The counter grows by one in
    every iteration and stays below [remainingTopicLength], so that
    [remainingTopicLength] iterations are enough fuel
    ([findSlash_slash_index]). *)
Definition extractThingNameLength (pRemainingTopic : ptr)
    (remainingTopicLength : Z) (pOutThingNameLength : option Z)
  : option (DefenderStatus_t * option Z) :=
  let ret := DefenderNoMatch in
  let i := 0 in
  _ <- c_assert (negb (is_null pRemainingTopic)) ;;
  _ <- c_assert (negb (slot_is_null pOutThingNameLength)) ;;
  i <- findSlash (Z.to_nat remainingTopicLength) pRemainingTopic remainingTopicLength i ;;
  if 0 <? i then
    pOutThingNameLength <- slot_store pOutThingNameLength i ;;
    Some (DefenderSuccess, pOutThingNameLength)
  else Some (ret, pOutThingNameLength).

Definition matchBridge (pRemainingTopic : ptr) (remainingTopicLength : Z)
  : option DefenderStatus_t :=
  let ret := DefenderNoMatch in
  _ <- c_assert (negb (is_null pRemainingTopic)) ;;
  if DEFENDER_API_BRIDGE_LENGTH <=? remainingTopicLength then
    c <- memcmp pRemainingTopic (literal DEFENDER_API_BRIDGE) DEFENDER_API_BRIDGE_LENGTH ;;
    if c =? 0 then Some DefenderSuccess else Some ret
  else Some ret.

(** The [for] loop of [matchApi] over the table indices still to visit. *)
Fixpoint matchApi_loop (indices : list nat) (pRemainingTopic : ptr)
    (remainingTopicLength : Z) (pOutApi : option DefenderTopic_t)
  : option (DefenderStatus_t * option DefenderTopic_t) :=
  match indices with
  | [] => Some (DefenderNoMatch, pOutApi)
  | i :: indices' =>
      len <- nth_error defenderApiTopicLength i ;;
      topic <- nth_error defenderApiTopic i ;;
      api <- nth_error defenderApi i ;;
      hit <- (if remainingTopicLength =? len then
                c <- memcmp pRemainingTopic (literal topic) len ;;
                Some (c =? 0)
              else Some false) ;;
      if hit : bool then
        pOutApi <- slot_store pOutApi api ;;
        Some (DefenderSuccess, pOutApi)
      else matchApi_loop indices' pRemainingTopic remainingTopicLength pOutApi
  end.

Definition matchApi (pRemainingTopic : ptr) (remainingTopicLength : Z)
    (pOutApi : option DefenderTopic_t)
  : option (DefenderStatus_t * option DefenderTopic_t) :=
  matchApi_loop (seq 0 (length defenderApi))
    pRemainingTopic remainingTopicLength pOutApi.

(** ** defender.c: the public functions *)

(** The result is the status, [pBuffer] viewing its object after the call,
    and the slot behind [pOutLength] after the call. *)
Definition Defender_GetTopic (pBuffer : ptr) (bufferLength : Z)
    (pThingName : ptr) (thingNameLength : Z)
    (api : DefenderTopic_t) (pOutLength : option Z)
  : option (DefenderStatus_t * ptr * option Z) :=
  let ret := DefenderSuccess in
  let topicLength := 0 in
  let offset := 0 in
  let ret :=
    if is_null pBuffer
       || is_null pThingName
       || (thingNameLength =? 0) || (DEFENDER_THINGNAME_MAX_LENGTH <? thingNameLength)
       || (topic_value api <=? topic_value DefenderInvalidTopic)
       || (topic_value DefenderMaxTopic <=? topic_value api)
       || slot_is_null pOutLength
    then DefenderBadParameter else ret in
  '(ret, topicLength) <-
     (if status_eqb ret DefenderSuccess then
        topicLength <- getTopicLength thingNameLength api ;;
        if bufferLength <? topicLength
        then Some (DefenderBufferTooSmall, topicLength)
        else Some (ret, topicLength)
      else Some (ret, topicLength)) ;;
  if status_eqb ret DefenderSuccess then
    (* Write prefix first. *)
    d <- index_addr pBuffer offset ;;
    o <- memcpy d (literal DEFENDER_API_PREFIX) DEFENDER_API_PREFIX_LENGTH ;;
    let pBuffer := viewing pBuffer o in
    let offset := u32 (offset + DEFENDER_API_PREFIX_LENGTH) in
    (* Write thing name next. *)
    d <- index_addr pBuffer offset ;;
    o <- memcpy d pThingName thingNameLength ;;
    let pBuffer := viewing pBuffer o in
    let offset := u32 (offset + thingNameLength) in
    (* Write bridge next. *)
    d <- index_addr pBuffer offset ;;
    o <- memcpy d (literal DEFENDER_API_BRIDGE) DEFENDER_API_BRIDGE_LENGTH ;;
    let pBuffer := viewing pBuffer o in
    let offset := u32 (offset + DEFENDER_API_BRIDGE_LENGTH) in
    (* Write report format and suffix. *)
    d <- index_addr pBuffer offset ;;
    o <- writeFormatAndSuffix d api ;;
    let pBuffer := viewing pBuffer o in
    pOutLength <- slot_store pOutLength topicLength ;;
    Some (ret, pBuffer, pOutLength)
  else Some (ret, pBuffer, pOutLength).

(** The outputs of [Defender_MatchTopic]: the slots behind [pOutApi],
    [ppOutThingName] and [pOutThingNameLength] after the call. *)
Record MatchOutputs : Type := mkMatchOutputs {
  outApi : option DefenderTopic_t;
  outThingName : option ptr;
  outThingNameLength : option Z
}.

Definition Defender_MatchTopic (pTopic : ptr) (topicLength : Z)
    (pOutApi : option DefenderTopic_t)
    (ppOutThingName : option ptr)
    (pOutThingNameLength : option Z)
  : option (DefenderStatus_t * MatchOutputs) :=
  let ret := DefenderSuccess in
  let thingNameLength := 0 in
  let ret :=
    if is_null pTopic || slot_is_null pOutApi then DefenderBadParameter else ret in
  (* Nothing is consumed yet. *)
  let remainingTopicLength := topicLength in
  let consumedTopicLength := 0 in
  '(ret, remainingTopicLength, consumedTopicLength) <-
     (if status_eqb ret DefenderSuccess then
        p <- index_addr pTopic consumedTopicLength ;;
        ret <- matchPrefix p remainingTopicLength ;;
        if status_eqb ret DefenderSuccess
        then Some (ret, u16 (remainingTopicLength - DEFENDER_API_PREFIX_LENGTH),
                   u16 (consumedTopicLength + DEFENDER_API_PREFIX_LENGTH))
        else Some (ret, remainingTopicLength, consumedTopicLength)
      else Some (ret, remainingTopicLength, consumedTopicLength)) ;;
  '(ret, remainingTopicLength, consumedTopicLength, thingNameLength) <-
     (if status_eqb ret DefenderSuccess then
        p <- index_addr pTopic consumedTopicLength ;;
        '(ret, slot) <- extractThingNameLength p remainingTopicLength
                          (Some thingNameLength) ;;
        thingNameLength <- slot ;;
        if status_eqb ret DefenderSuccess
        then Some (ret, u16 (remainingTopicLength - thingNameLength),
                   u16 (consumedTopicLength + thingNameLength), thingNameLength)
        else Some (ret, remainingTopicLength, consumedTopicLength, thingNameLength)
      else Some (ret, remainingTopicLength, consumedTopicLength, thingNameLength)) ;;
  '(ret, remainingTopicLength, consumedTopicLength) <-
     (if status_eqb ret DefenderSuccess then
        p <- index_addr pTopic consumedTopicLength ;;
        ret <- matchBridge p remainingTopicLength ;;
        if status_eqb ret DefenderSuccess
        then Some (ret, u16 (remainingTopicLength - DEFENDER_API_BRIDGE_LENGTH),
                   u16 (consumedTopicLength + DEFENDER_API_BRIDGE_LENGTH))
        else Some (ret, remainingTopicLength, consumedTopicLength)
      else Some (ret, remainingTopicLength, consumedTopicLength)) ;;
  '(ret, pOutApi) <-
     (if status_eqb ret DefenderSuccess then
        p <- index_addr pTopic consumedTopicLength ;;
        matchApi p remainingTopicLength pOutApi
      else Some (ret, pOutApi)) ;;
  (* Update the out parameters for thing name and thing length location,
     if we successfully matched the topic. *)
  '(ppOutThingName, pOutThingNameLength) <-
     (if status_eqb ret DefenderSuccess then
        ppOutThingName <-
          (if negb (slot_is_null ppOutThingName) then
             q <- index_addr pTopic DEFENDER_API_PREFIX_LENGTH ;;
             slot_store ppOutThingName q
           else Some ppOutThingName) ;;
        pOutThingNameLength <-
          (if negb (slot_is_null pOutThingNameLength)
           then slot_store pOutThingNameLength thingNameLength
           else Some pOutThingNameLength) ;;
        Some (ppOutThingName, pOutThingNameLength)
      else Some (ppOutThingName, pOutThingNameLength)) ;;
  (* Update the output parameter for API if the topic did not match. *)
  pOutApi <-
     (if status_eqb ret DefenderNoMatch
      then slot_store pOutApi DefenderInvalidTopic
      else Some pOutApi) ;;
  Some (ret, mkMatchOutputs pOutApi ppOutThingName pOutThingNameLength).

(** The bytes of a string, without the terminating NUL. *)
Definition bytes (s : string) : list ascii := list_ascii_of_string s.

(** The format and suffix of a topic, as listed in [defenderApiTopic]. *)
Definition apiTopic (api : DefenderTopic_t) : string :=
  nth (Z.to_nat (topic_value api)) defenderApiTopic EmptyString.

(** ** The topic grammar, on byte sequences

    These functions describe on plain lists what the matcher computes
    through pointers; [Defender_MatchTopic_parse] below relates the two. *)

(** [bs] begins with the bytes [lit]. *)
Fixpoint starts_with (lit bs : list ascii) : bool :=
  match lit, bs with
  | [], _ => true
  | x :: lit', y :: bs' => (x =? y)%char && starts_with lit' bs'
  | _ :: _, [] => false
  end.

(** The position of the first forward slash of [bs], or the length of
    [bs] when it has none. *)
Fixpoint slash_index (bs : list ascii) : nat :=
  match bs with
  | [] => 0
  | c :: bs' => if (c =? "/")%char then 0 else S (slash_index bs')
  end.

Definition bytes_eqb (a b : list ascii) : bool :=
  if list_eq_dec ascii_dec a b then true else false.

(** The first API of the table whose topic string is exactly [bs]. *)
Definition lookup_api (bs : list ascii) : option DefenderTopic_t :=
  find (fun api => bytes_eqb (bytes (apiTopic api)) bs) defenderApi.

(** The API and the thing name length of a defender topic. *)
Definition parse_topic (bs : list ascii) : option (DefenderTopic_t * nat) :=
  if starts_with (bytes DEFENDER_API_PREFIX) bs then
    let r := skipn (length (bytes DEFENDER_API_PREFIX)) bs in
    let k := slash_index r in
    if (0 <? k)%nat then
      let r := skipn k r in
      if starts_with (bytes DEFENDER_API_BRIDGE) r then
        match lookup_api (skipn (length (bytes DEFENDER_API_BRIDGE)) r) with
        | Some api => Some (api, k)
        | None => None
        end
      else None
    else None
  else None.

(** The topic string of a thing name and an API. *)
Definition topic_of (id : list ascii) (api : DefenderTopic_t) : list ascii :=
  bytes DEFENDER_API_PREFIX ++ id ++ bytes DEFENDER_API_BRIDGE ++ bytes (apiTopic api).

(** No byte of [id] is a forward slash. *)
Definition slash_free (id : list ascii) : bool :=
  forallb (fun c => negb (c =? "/")%char) id.

(** The report format and the suffix of an API, as the [switch] of
    [writeFormatAndSuffix] selects them. *)
Definition apiFormat (api : DefenderTopic_t) : string :=
  match api with
  | DefenderJsonReportPublish
  | DefenderJsonReportAccepted
  | DefenderJsonReportRejected => DEFENDER_API_JSON_REPORT_FORMAT
  | _ => DEFENDER_API_CBOR_REPORT_FORMAT
  end.

Definition apiSuffix (api : DefenderTopic_t) : string :=
  match api with
  | DefenderJsonReportPublish | DefenderCborReportPublish => EmptyString
  | DefenderJsonReportAccepted | DefenderCborReportAccepted =>
      DEFENDER_API_ACCEPTED_SUFFIX
  | _ => DEFENDER_API_REJECTED_SUFFIX
  end.

(** The length of a topic: prefix, thing name, bridge, format, suffix. *)
Definition requiredLength (thingNameLength : Z) (api : DefenderTopic_t) : Z :=
  DEFENDER_API_COMMON_LENGTH thingNameLength
    (STRING_LITERAL_LENGTH (apiFormat api)) (STRING_LITERAL_LENGTH (apiSuffix api)).

(** The outputs of a successful match of a topic at [pTopic]: the API,
    the address [&( pTopic[ DEFENDER_API_PREFIX_LENGTH ] )] and the
    length [k], each where the caller passed a slot for it. *)
Definition matched (pTopic : ptr) (api : DefenderTopic_t) (k : nat)
    (ppOutThingName : option ptr) (pOutThingNameLength : option Z) : MatchOutputs :=
  mkMatchOutputs (Some api)
    (match ppOutThingName with
     | Some _ => index_addr pTopic DEFENDER_API_PREFIX_LENGTH
     | None => None
     end)
    (match pOutThingNameLength with
     | Some _ => Some (Z.of_nat k)
     | None => None
     end).


(** ** Further notions for the properties of the code *)

(** A pointer as the proof harness of [Defender_GetTopic] allocates it
    ([mallocCanFail( n )]): [NULL], or valid for [n] bytes. *)
Definition null_or_valid (p : ptr) (n : Z) : bool :=
  match p with NULL => true | Ptr obj ofs => in_bounds obj ofs n end.

(** The entry of [defenderApiTopicLength] for an API. *)
Definition apiTopicLength (api : DefenderTopic_t) : Z :=
  nth (Z.to_nat (topic_value api)) defenderApiTopicLength 0.

(** The topic string macro of defender.h for an API. *)
Definition apiMacro (api : DefenderTopic_t) : string -> string :=
  match api with
  | DefenderJsonReportPublish => DEFENDER_API_JSON_REPORT_PUBLISH
  | DefenderJsonReportAccepted => DEFENDER_API_JSON_REPORT_ACCEPTED
  | DefenderJsonReportRejected => DEFENDER_API_JSON_REPORT_REJECTED
  | DefenderCborReportPublish => DEFENDER_API_CBOR_REPORT_PUBLISH
  | DefenderCborReportAccepted => DEFENDER_API_CBOR_REPORT_ACCEPTED
  | _ => DEFENDER_API_CBOR_REPORT_REJECTED
  end.

(** The bytes of a topic with an empty thing name, for the examples. *)
Definition empty_name_topic : list ascii := bytes "$aws/things//defender/metrics/json".

(** ** Concrete inputs for the examples *)

(** A buffer of 64 bytes and a thing name, for the examples. *)
Definition example_buffer : list ascii := repeat "x"%char 64.
Definition example_thing : list ascii := bytes "MyThing".

(** A thing name of 129 bytes and its topic. *)
Definition long_thing : list ascii := repeat "a"%char 129.
Definition long_topic : list ascii := topic_of long_thing DefenderCborReportAccepted.

(** * Lemmas on the memory model *)

Section Memory.

Implicit Types (obj pre post bs : list ascii) (ofs n : Z).

Lemma in_bounds_iff obj ofs n :
  in_bounds obj ofs n = true <-> 0 <= ofs /\ 0 <= n /\ ofs + n <= Z.of_nat (length obj).
Proof. unfold in_bounds. rewrite !andb_true_iff, !Z.leb_le. tauto. Qed.

(** A list splits at every position inside it. *)
Lemma list_split_at (l : list ascii) (k : nat) :
  (k <= length l)%nat ->
  exists x y, l = x ++ y /\ length x = k.
Proof.
  intros H. exists (firstn k l), (skipn k l). split.
  - symmetry. apply firstn_skipn.
  - apply firstn_length_le. exact H.
Qed.

Lemma firstn_skipn_middle pre bs post :
  firstn (length bs) (skipn (length pre) (pre ++ bs ++ post)) = bs.
Proof.
  rewrite skipn_app, skipn_all, Nat.sub_diag. simpl.
  rewrite firstn_app, firstn_all, Nat.sub_diag. simpl. apply app_nil_r.
Qed.

(** Reading the middle of an object. *)
Lemma load_bytes_at obj ofs n pre bs post :
  obj = pre ++ bs ++ post ->
  ofs = Z.of_nat (length pre) ->
  n = Z.of_nat (length bs) ->
  load_bytes (Ptr obj ofs) n = Some bs.
Proof.
  intros -> -> ->. unfold load_bytes.
  replace (in_bounds _ _ _) with true.
  - rewrite !Nat2Z.id. f_equal. apply firstn_skipn_middle.
  - symmetry. apply in_bounds_iff. rewrite !length_app. lia.
Qed.

(** Every successful read is the read of such a middle. *)
Lemma load_bytes_inv p n bs :
  load_bytes p n = Some bs ->
  exists obj pre post,
    p = Ptr obj (Z.of_nat (length pre)) /\ obj = pre ++ bs ++ post
    /\ n = Z.of_nat (length bs).
Proof.
  destruct p as [|obj ofs]; [discriminate|]. unfold load_bytes.
  destruct (in_bounds obj ofs n) eqn:Hb; [|discriminate].
  apply in_bounds_iff in Hb. destruct Hb as (H0 & Hn & Hle).
  intros [= <-].
  exists obj, (firstn (Z.to_nat ofs) obj),
    (skipn (Z.to_nat n) (skipn (Z.to_nat ofs) obj)).
  assert (Hl : length (firstn (Z.to_nat ofs) obj) = Z.to_nat ofs)
    by (apply firstn_length_le; lia).
  repeat split.
  - rewrite Hl, Z2Nat.id by lia. reflexivity.
  - now rewrite firstn_skipn, firstn_skipn.
  - rewrite firstn_length_le; [lia|]. rewrite length_skipn. lia.
Qed.

Lemma load_at obj ofs i pre bs post c :
  obj = pre ++ bs ++ post ->
  ofs = Z.of_nat (length pre) ->
  nth_error bs i = Some c ->
  load (Ptr obj ofs) (Z.of_nat i) = Some c.
Proof.
  intros -> -> Hc. unfold load.
  assert (Hi : (i < length bs)%nat) by (apply nth_error_Some; congruence).
  replace (in_bounds _ _ _) with true.
  - rewrite <- Nat2Z.inj_add, Nat2Z.id.
    rewrite nth_error_app2 by lia.
    replace (length pre + i - length pre)%nat with i by lia.
    rewrite nth_error_app1 by lia. exact Hc.
  - symmetry. apply in_bounds_iff. rewrite !length_app. lia.
Qed.

(** Writing over the middle of an object. *)
Lemma store_bytes_at obj ofs pre old post bs :
  obj = pre ++ old ++ post ->
  ofs = Z.of_nat (length pre) ->
  length bs = length old ->
  store_bytes (Ptr obj ofs) bs = Some (pre ++ bs ++ post).
Proof.
  intros -> -> Hlen. unfold store_bytes.
  replace (in_bounds _ _ _) with true.
  - rewrite Nat2Z.id. f_equal.
    rewrite firstn_app, firstn_all, Nat.sub_diag. simpl. rewrite app_nil_r.
    f_equal. f_equal.
    rewrite Hlen, <- length_app, app_assoc.
    rewrite skipn_app, skipn_all, Nat.sub_diag. reflexivity.
  - symmetry. apply in_bounds_iff. rewrite !length_app. lia.
Qed.

Lemma memcpy_at obj ofs pre old post src n bs :
  load_bytes src n = Some bs ->
  obj = pre ++ old ++ post ->
  ofs = Z.of_nat (length pre) ->
  n = Z.of_nat (length old) ->
  memcpy (Ptr obj ofs) src n = Some (pre ++ bs ++ post).
Proof.
  intros Hsrc Hobj Hofs Hn. unfold memcpy. rewrite Hsrc.
  apply store_bytes_at with (old := old); trivial.
  apply load_bytes_inv in Hsrc. destruct Hsrc as (_ & _ & _ & _ & _ & Hl). lia.
Qed.

Lemma index_addr_at obj ofs k :
  0 <= ofs + k <= Z.of_nat (length obj) ->
  index_addr (Ptr obj ofs) k = Some (Ptr obj (ofs + k)).
Proof.
  intros H. unfold index_addr.
  replace (in_bounds _ _ _) with true; [reflexivity|].
  symmetry. apply in_bounds_iff. lia.
Qed.

(** The characters of a literal, without the NUL. *)
Lemma load_literal (s : string) :
  load_bytes (literal s) (STRING_LITERAL_LENGTH s) = Some (bytes s).
Proof.
  unfold literal, literal_bytes. apply load_bytes_at with (pre := []) (post := [zero]).
  - reflexivity.
  - reflexivity.
  - unfold STRING_LITERAL_LENGTH, sizeof_literal, literal_bytes, bytes.
    rewrite length_app. simpl. lia.
Qed.

Lemma STRING_LITERAL_LENGTH_bytes (s : string) :
  STRING_LITERAL_LENGTH s = Z.of_nat (length (bytes s)).
Proof.
  unfold STRING_LITERAL_LENGTH, sizeof_literal, literal_bytes, bytes.
  rewrite length_app. simpl. lia.
Qed.

End Memory.

(** * Lemmas on the grammar functions *)

Section Grammar.

Implicit Types (lit bs id rest : list ascii).

Lemma skipn_app_length (a b : list ascii) : skipn (length a) (a ++ b) = b.
Proof. rewrite skipn_app, skipn_all, Nat.sub_diag. reflexivity. Qed.

Lemma starts_with_app lit rest : starts_with lit (lit ++ rest) = true.
Proof. induction lit as [|x lit IH]; simpl; [|rewrite Ascii.eqb_refl]; trivial. Qed.

Lemma starts_with_inv lit bs :
  starts_with lit bs = true -> bs = lit ++ skipn (length lit) bs.
Proof.
  revert bs. induction lit as [|x lit IH]; intros [|y bs]; simpl; try discriminate; trivial.
  rewrite andb_true_iff. intros [Hxy H].
  apply Ascii.eqb_eq in Hxy. subst y. f_equal. now apply IH.
Qed.

Lemma starts_with_short lit bs :
  (length bs < length lit)%nat -> starts_with lit bs = false.
Proof.
  revert bs. induction lit as [|x lit IH]; intros [|y bs]; simpl; try lia; trivial.
  intros H. rewrite IH by lia. apply andb_false_r.
Qed.

(** [memcmp] of as many bytes as [lit] has decides [starts_with]. *)
Lemma compare_bytes_starts_with lit x y :
  length x = length lit ->
  (compare_bytes x lit =? 0) = starts_with lit (x ++ y).
Proof.
  revert x. induction lit as [|c lit IH]; intros [|d x]; simpl; try discriminate; trivial.
  intros [= Hl]. rewrite (Ascii.eqb_sym c d).
  destruct (d =? c)%char; simpl.
  - now apply IH.
  - now destruct (N_of_ascii d <? N_of_ascii c)%N.
Qed.

Lemma slash_index_le bs : (slash_index bs <= length bs)%nat.
Proof.
  induction bs as [|c bs IH]; simpl; [lia|].
  destruct (c =? "/")%char; lia.
Qed.

Lemma slash_index_app id rest :
  slash_free id = true ->
  slash_index (id ++ rest) = (length id + slash_index rest)%nat.
Proof.
  induction id as [|c id IH]; simpl; trivial.
  rewrite andb_true_iff, negb_true_iff. intros [Hc Hid].
  now rewrite Hc, IH.
Qed.

Lemma slash_index_prefix bs : slash_free (firstn (slash_index bs) bs) = true.
Proof.
  induction bs as [|c bs IH]; simpl; trivial.
  destruct (c =? "/")%char eqn:Hc; simpl; trivial.
  now rewrite Hc, IH.
Qed.

Lemma slash_index_slash_free bs : slash_free bs = true -> slash_index bs = length bs.
Proof.
  intros H. rewrite <- (app_nil_r bs) at 1.
  rewrite slash_index_app by exact H. simpl. lia.
Qed.

Lemma bytes_eqb_true a b : bytes_eqb a b = true <-> a = b.
Proof. unfold bytes_eqb. destruct (list_eq_dec ascii_dec a b); split; congruence. Qed.

Lemma lookup_api_apiTopic api :
  valid_api api = true -> lookup_api (bytes (apiTopic api)) = Some api.
Proof. destruct api; try discriminate; intros _; reflexivity. Qed.

Lemma lookup_api_inv bs api :
  lookup_api bs = Some api -> valid_api api = true /\ bs = bytes (apiTopic api).
Proof.
  unfold lookup_api. intros H. apply find_some in H. destruct H as [Hin Heq].
  apply bytes_eqb_true in Heq. split; [|now symmetry].
  simpl in Hin. intuition (subst; reflexivity).
Qed.

(** The grammar accepts exactly the topic strings with a non-empty thing
    name that has no forward slash. *)
Lemma parse_topic_of id api :
  id <> [] -> slash_free id = true -> valid_api api = true ->
  parse_topic (topic_of id api) = Some (api, length id).
Proof.
  intros Hne Hsf Hv. unfold parse_topic, topic_of.
  rewrite starts_with_app, !skipn_app_length.
  rewrite slash_index_app by exact Hsf.
  change (slash_index (bytes DEFENDER_API_BRIDGE ++ bytes (apiTopic api))) with 0%nat.
  rewrite Nat.add_0_r.
  replace (0 <? length id)%nat with true
    by (symmetry; apply Nat.ltb_lt; destruct id; [congruence|simpl; lia]).
  rewrite skipn_app_length, starts_with_app, skipn_app_length.
  now rewrite lookup_api_apiTopic.
Qed.

Lemma parse_topic_inv bs api k :
  parse_topic bs = Some (api, k) ->
  exists id, bs = topic_of id api /\ length id = k /\ id <> []
             /\ slash_free id = true /\ valid_api api = true.
Proof.
  unfold parse_topic.
  destruct (starts_with (bytes DEFENDER_API_PREFIX) bs) eqn:Hp; [|discriminate].
  apply starts_with_inv in Hp.
  set (r := skipn (length (bytes DEFENDER_API_PREFIX)) bs) in *.
  destruct (0 <? slash_index r)%nat eqn:Hk; [|discriminate].
  apply Nat.ltb_lt in Hk.
  destruct (starts_with (bytes DEFENDER_API_BRIDGE) (skipn (slash_index r) r)) eqn:Hb;
    [|discriminate].
  apply starts_with_inv in Hb.
  destruct (lookup_api _) as [api'|] eqn:Hl; [|discriminate].
  intros [= -> <-]. apply lookup_api_inv in Hl. destruct Hl as [Hv Hl].
  exists (firstn (slash_index r) r). repeat split.
  - unfold topic_of. rewrite <- Hl, <- Hb, firstn_skipn. exact Hp.
  - apply firstn_length_le, slash_index_le.
  - intros Hnil. apply (f_equal (@length ascii)) in Hnil.
    rewrite firstn_length_le in Hnil by apply slash_index_le. simpl in Hnil. lia.
  - apply slash_index_prefix.
  - exact Hv.
Qed.

End Grammar.

(** * The matcher's stages compute the grammar functions *)

Section Matcher.

Implicit Types (p q : ptr) (bs : list ascii) (n : Z).

Lemma u16_small x : 0 <= x <= UINT16_MAX -> u16 x = x.
Proof. unfold UINT16_MAX. intros H. apply Z.mod_small. change (2 ^ 16) with 65536. lia. Qed.

Lemma u32_small x : 0 <= x <= UINT32_MAX -> u32 x = x.
Proof. unfold UINT32_MAX. intros H. apply Z.mod_small. change (2 ^ 32) with 4294967296. lia. Qed.

Lemma load_bytes_length p n bs :
  load_bytes p n = Some bs -> n = Z.of_nat (length bs).
Proof. intros H. apply load_bytes_inv in H. now destruct H as (_ & _ & _ & _ & _ & H). Qed.

Lemma load_bytes_not_null p n bs : load_bytes p n = Some bs -> is_null p = false.
Proof. destruct p; [discriminate|reflexivity]. Qed.

(** Advancing a pointer inside the bytes it reads. *)
Lemma index_addr_load p n bs (k : nat) :
  load_bytes p n = Some bs -> (k <= length bs)%nat ->
  exists q, index_addr p (Z.of_nat k) = Some q
            /\ load_bytes q (n - Z.of_nat k) = Some (skipn k bs).
Proof.
  intros H Hk. apply load_bytes_inv in H.
  destruct H as (obj & pre & post & -> & Hobj & ->).
  exists (Ptr obj (Z.of_nat (length pre) + Z.of_nat k)). split.
  - apply index_addr_at. rewrite Hobj, !length_app. lia.
  - apply load_bytes_at with (pre := pre ++ firstn k bs) (post := post).
    + rewrite Hobj, <- app_assoc. f_equal.
      now rewrite (app_assoc (firstn k bs)), firstn_skipn.
    + rewrite length_app, firstn_length_le; lia.
    + rewrite length_skipn. lia.
Qed.

Lemma load_bytes_take p n bs (k : nat) :
  load_bytes p n = Some bs -> (k <= length bs)%nat ->
  load_bytes p (Z.of_nat k) = Some (firstn k bs).
Proof.
  intros H Hk. apply load_bytes_inv in H.
  destruct H as (obj & pre & post & -> & Hobj & ->).
  apply load_bytes_at with (pre := pre) (post := skipn k bs ++ post).
  - rewrite Hobj. f_equal. now rewrite (app_assoc (firstn k bs)), firstn_skipn.
  - reflexivity.
  - rewrite firstn_length_le; lia.
Qed.

Lemma memcmp_literal p n bs (s : string) :
  load_bytes p n = Some bs ->
  STRING_LITERAL_LENGTH s <= n ->
  exists c, memcmp p (literal s) (STRING_LITERAL_LENGTH s) = Some c
            /\ (c =? 0) = starts_with (bytes s) bs.
Proof.
  intros H Hle. pose proof (load_bytes_length _ _ _ H) as Hn.
  rewrite STRING_LITERAL_LENGTH_bytes in Hle.
  assert (Hk : (length (bytes s) <= length bs)%nat) by lia.
  unfold memcmp. rewrite load_literal.
  rewrite STRING_LITERAL_LENGTH_bytes, (load_bytes_take _ _ _ _ H Hk).
  eexists. split; [reflexivity|].
  rewrite <- (firstn_skipn (length (bytes s)) bs) at 2.
  apply compare_bytes_starts_with. now apply firstn_length_le.
Qed.

(** The body shared by [matchPrefix] and [matchBridge]. *)
Lemma match_literal p n bs (s : string) :
  load_bytes p n = Some bs ->
  (if STRING_LITERAL_LENGTH s <=? n then
     c <- memcmp p (literal s) (STRING_LITERAL_LENGTH s) ;;
     if c =? 0 then Some DefenderSuccess else Some DefenderNoMatch
   else Some DefenderNoMatch)
  = Some (if starts_with (bytes s) bs then DefenderSuccess else DefenderNoMatch).
Proof.
  intros H. destruct (STRING_LITERAL_LENGTH s <=? n) eqn:Hle.
  - apply Z.leb_le in Hle.
    destruct (memcmp_literal _ _ _ s H Hle) as (c & -> & ->).
    now destruct (starts_with _ _).
  - apply Z.leb_gt in Hle. rewrite STRING_LITERAL_LENGTH_bytes in Hle.
    apply load_bytes_length in H. rewrite starts_with_short by lia. reflexivity.
Qed.

Lemma matchPrefix_starts_with p n bs :
  load_bytes p n = Some bs ->
  matchPrefix p n
  = Some (if starts_with (bytes DEFENDER_API_PREFIX) bs
          then DefenderSuccess else DefenderNoMatch).
Proof.
  intros H. unfold matchPrefix. rewrite (load_bytes_not_null _ _ _ H).
  cbn [negb c_assert]. now apply match_literal.
Qed.

Lemma matchBridge_starts_with p n bs :
  load_bytes p n = Some bs ->
  matchBridge p n
  = Some (if starts_with (bytes DEFENDER_API_BRIDGE) bs
          then DefenderSuccess else DefenderNoMatch).
Proof.
  intros H. unfold matchBridge. rewrite (load_bytes_not_null _ _ _ H).
  cbn [negb c_assert]. now apply match_literal.
Qed.

Lemma skipn_nth_error bs (i : nat) c :
  nth_error bs i = Some c -> skipn i bs = c :: skipn (S i) bs.
Proof.
  revert i. induction bs as [|x bs IH]; intros [|i]; simpl; try discriminate.
  - now intros [= ->].
  - intros H. now rewrite (IH _ H).
Qed.

(** The loop stops at the first forward slash, or at the end. *)
Lemma findSlash_slash_index pre bs post (fuel i : nat) :
  Z.of_nat (length bs) <= UINT16_MAX ->
  (i <= length bs)%nat -> (length bs - i <= fuel)%nat ->
  findSlash fuel (Ptr (pre ++ bs ++ post) (Z.of_nat (length pre)))
    (Z.of_nat (length bs)) (Z.of_nat i)
  = Some (Z.of_nat (i + slash_index (skipn i bs))).
Proof.
  intros Hsz. revert i. induction fuel as [|fuel IH]; intros i Hi Hfuel.
  - assert (i = length bs) by lia. subst i. simpl.
    rewrite Z.ltb_irrefl, skipn_all. simpl. now rewrite Nat.add_0_r.
  - cbn [findSlash]. destruct (Z.of_nat i <? Z.of_nat (length bs)) eqn:Hlt.
    + apply Z.ltb_lt in Hlt.
      destruct (nth_error bs i) as [c|] eqn:Hc;
        [|apply nth_error_None in Hc; lia].
      rewrite (load_at _ _ _ pre bs post c eq_refl eq_refl Hc).
      rewrite (skipn_nth_error _ _ _ Hc). cbn [slash_index].
      destruct (c =? "/")%char.
      * now rewrite Nat.add_0_r.
      * rewrite u16_small by lia.
        replace (Z.of_nat i + 1) with (Z.of_nat (S i)) by lia.
        rewrite IH by lia. f_equal. lia.
    + apply Z.ltb_ge in Hlt. assert (i = length bs) by lia. subst i.
      rewrite skipn_all. simpl. now rewrite Nat.add_0_r.
Qed.

Lemma extractThingNameLength_slash_index p n bs (v : Z) :
  load_bytes p n = Some bs -> n <= UINT16_MAX ->
  extractThingNameLength p n (Some v)
  = Some (if (0 <? slash_index bs)%nat
          then (DefenderSuccess, Some (Z.of_nat (slash_index bs)))
          else (DefenderNoMatch, Some v)).
Proof.
  intros H Hsz. apply load_bytes_inv in H.
  destruct H as (obj & pre & post & -> & -> & ->).
  unfold extractThingNameLength. cbn [is_null slot_is_null negb c_assert].
  rewrite Nat2Z.id.
  assert (Hf := findSlash_slash_index pre bs post (length bs) 0 Hsz).
  change (Z.of_nat 0) with 0 in Hf. rewrite Hf by lia.
  cbn [skipn Nat.add].
  destruct (slash_index bs) as [|k] eqn:Hk; [reflexivity|].
  replace (0 <? Z.of_nat (S k)) with true by (symmetry; apply Z.ltb_lt; lia).
  reflexivity.
Qed.

Lemma starts_with_same_length (lit bs : list ascii) :
  length bs = length lit -> starts_with lit bs = bytes_eqb lit bs.
Proof.
  intros Hl. destruct (bytes_eqb lit bs) eqn:He.
  - apply bytes_eqb_true in He. subst bs.
    rewrite <- (app_nil_r lit) at 2. apply starts_with_app.
  - destruct (starts_with lit bs) eqn:Hs; trivial.
    apply starts_with_inv in Hs.
    rewrite skipn_all2, app_nil_r in Hs by lia.
    symmetry in Hs. apply bytes_eqb_true in Hs. congruence.
Qed.

(** One entry of the table: equal length and equal bytes. *)
Lemma matchApi_entry p n bs (s : string) (len : Z) :
  load_bytes p n = Some bs ->
  len = STRING_LITERAL_LENGTH s ->
  (if n =? len then
     c <- memcmp p (literal s) len ;; Some (c =? 0)
   else Some false)
  = Some (bytes_eqb (bytes s) bs).
Proof.
  intros H ->. pose proof (load_bytes_length _ _ _ H) as Hn.
  destruct (n =? STRING_LITERAL_LENGTH s) eqn:He.
  - apply Z.eqb_eq in He.
    destruct (memcmp_literal _ _ _ s H) as (c & -> & ->); [lia|].
    f_equal. apply starts_with_same_length.
    rewrite STRING_LITERAL_LENGTH_bytes in He. lia.
  - apply Z.eqb_neq in He. rewrite STRING_LITERAL_LENGTH_bytes in He.
    f_equal. symmetry. destruct (bytes_eqb (bytes s) bs) eqn:Hb; trivial.
    apply bytes_eqb_true in Hb. subst bs. lia.
Qed.

Lemma matchApi_lookup_api p n bs (a : DefenderTopic_t) :
  load_bytes p n = Some bs ->
  matchApi p n (Some a)
  = Some (match lookup_api bs with
          | Some api => (DefenderSuccess, Some api)
          | None => (DefenderNoMatch, Some a)
          end).
Proof.
  intros H. unfold matchApi.
  change (seq 0 (length defenderApi)) with [0; 1; 2; 3; 4; 5]%nat.
  cbv beta iota delta
    [matchApi_loop nth_error defenderApiTopicLength defenderApiTopic defenderApi].
  repeat match goal with
         | |- context [memcmp p (literal ?s) ?len] =>
             rewrite (matchApi_entry p n bs s len H eq_refl)
         end.
  unfold lookup_api, defenderApi. cbn [find slot_store].
  repeat match goal with
         | |- context [bytes_eqb (bytes ?s) bs] =>
             let v := eval vm_compute in (bytes s) in
             progress change (bytes s) with v
         end.
  repeat match goal with
         | |- context [bytes_eqb ?l bs] => destruct (bytes_eqb l bs)
         end; reflexivity.
Qed.

End Matcher.

(** * [Defender_MatchTopic] computes [parse_topic] *)

Section MatchTopic.

Lemma Defender_MatchTopic_parse pTopic topicLength bs a nm ln :
  load_bytes pTopic topicLength = Some bs ->
  topicLength <= UINT16_MAX ->
  Defender_MatchTopic pTopic topicLength (Some a) nm ln
  = Some (match parse_topic bs with
          | Some (api, k) => (DefenderSuccess, matched pTopic api k nm ln)
          | None => (DefenderNoMatch, mkMatchOutputs (Some DefenderInvalidTopic) nm ln)
          end).
Proof.
  intros H Hsz. pose proof (load_bytes_length _ _ _ H) as Hn.
  assert (Hmax : UINT16_MAX = 65535) by reflexivity.
  unfold Defender_MatchTopic, parse_topic.
  rewrite (load_bytes_not_null _ _ _ H).
  cbn [slot_is_null orb status_eqb].
  (* prefix *)
  destruct (index_addr_load _ _ _ 0 H) as (q0 & Hq0 & Hl0); [lia|].
  change (Z.of_nat 0) with 0 in *. rewrite Z.sub_0_r in Hl0. cbn [skipn] in Hl0.
  rewrite Hq0, (matchPrefix_starts_with _ _ _ Hl0).
  destruct (starts_with (bytes DEFENDER_API_PREFIX) bs) eqn:Hp;
    [|reflexivity].
  cbn [status_eqb].
  assert (Hlen1 : (length (bytes DEFENDER_API_PREFIX) <= length bs)%nat).
  { apply starts_with_inv in Hp. rewrite Hp, length_app. lia. }
  change (0 + DEFENDER_API_PREFIX_LENGTH)
    with (Z.of_nat (length (bytes DEFENDER_API_PREFIX))).
  change DEFENDER_API_PREFIX_LENGTH
    with (Z.of_nat (length (bytes DEFENDER_API_PREFIX))).
  set (k1 := length (bytes DEFENDER_API_PREFIX)) in *.
  assert (Hk1 : k1 = 12%nat) by reflexivity.
  rewrite !u16_small by lia.
  (* thing name *)
  destruct (index_addr_load _ _ _ k1 H Hlen1) as (q1 & Hq1 & Hl1).
  rewrite Hq1.
  rewrite (extractThingNameLength_slash_index _ _ _ 0 Hl1) by lia.
  set (r1 := skipn k1 bs) in *.
  assert (Hr1 : length r1 = (length bs - k1)%nat) by apply length_skipn.
  pose proof (slash_index_le r1) as Hk.
  destruct (0 <? slash_index r1)%nat eqn:Hpos; [|reflexivity].
  cbn [status_eqb].
  set (k := slash_index r1) in *.
  rewrite !u16_small by lia.
  (* bridge *)
  assert (Hlen2 : (k1 + k <= length bs)%nat) by lia.
  destruct (index_addr_load _ _ _ (k1 + k) H Hlen2) as (q2 & Hq2 & Hl2).
  replace (Z.of_nat k1 + Z.of_nat k) with (Z.of_nat (k1 + k)) by lia.
  rewrite Hq2.
  replace (topicLength - Z.of_nat k1 - Z.of_nat k)
    with (topicLength - Z.of_nat (k1 + k)) by lia.
  rewrite (matchBridge_starts_with _ _ _ Hl2).
  replace (skipn (k1 + k) bs) with (skipn k r1) in *
    by (unfold r1; rewrite skipn_skipn; f_equal; lia).
  set (r2 := skipn k r1) in *.
  assert (Hr2 : length r2 = (length r1 - k)%nat) by apply length_skipn.
  destruct (starts_with (bytes DEFENDER_API_BRIDGE) r2) eqn:Hb; [|reflexivity].
  cbn [status_eqb].
  assert (Hlen3 : (length (bytes DEFENDER_API_BRIDGE) <= length r2)%nat).
  { apply starts_with_inv in Hb. rewrite Hb, length_app. lia. }
  change DEFENDER_API_BRIDGE_LENGTH
    with (Z.of_nat (length (bytes DEFENDER_API_BRIDGE))).
  set (k3 := length (bytes DEFENDER_API_BRIDGE)) in *.
  assert (Hk3 : k3 = 18%nat) by reflexivity.
  rewrite !u16_small by lia.
  (* api *)
  assert (Hlen4 : (k1 + k + k3 <= length bs)%nat) by lia.
  destruct (index_addr_load _ _ _ (k1 + k + k3) H Hlen4) as (q3 & Hq3 & Hl3).
  replace (Z.of_nat (k1 + k) + Z.of_nat k3) with (Z.of_nat (k1 + k + k3)) by lia.
  rewrite Hq3.
  replace (topicLength - Z.of_nat (k1 + k) - Z.of_nat k3)
    with (topicLength - Z.of_nat (k1 + k + k3)) by lia.
  rewrite (matchApi_lookup_api _ _ _ a Hl3).
  replace (skipn (k1 + k + k3) bs) with (skipn k3 r2)
    by (unfold r2, r1; rewrite !skipn_skipn; f_equal; lia).
  destruct (lookup_api (skipn k3 r2)) as [api|]; [|reflexivity].
  cbn [status_eqb]. unfold matched.
  change DEFENDER_API_PREFIX_LENGTH with (Z.of_nat k1). rewrite Hq1.
  destruct nm, ln; reflexivity.
Qed.

(** A topic string with a thing name free of slashes is matched, and the
    outputs are its API and, in the slots the caller passed, the address of
    the thing name and its length. *)
Lemma Defender_MatchTopic_topic_of obj ofs (topicLength : Z) (id : list ascii)
    (api a : DefenderTopic_t) (nm : option ptr) (ln : option Z) :
  load_bytes (Ptr obj ofs) topicLength = Some (topic_of id api) ->
  topicLength <= UINT16_MAX ->
  id <> [] -> slash_free id = true -> valid_api api = true ->
  Defender_MatchTopic (Ptr obj ofs) topicLength (Some a) nm ln
  = Some (DefenderSuccess,
          mkMatchOutputs (Some api)
            (option_map (fun _ => Ptr obj (ofs + DEFENDER_API_PREFIX_LENGTH)) nm)
            (option_map (fun _ => Z.of_nat (length id)) ln)).
Proof.
  intros H Hsz Hne Hsf Hv.
  rewrite (Defender_MatchTopic_parse _ _ _ a nm ln H Hsz).
  rewrite (parse_topic_of _ _ Hne Hsf Hv). unfold matched.
  destruct (index_addr_load _ _ _ (length (bytes DEFENDER_API_PREFIX)) H)
    as (q & Hq & _).
  { unfold topic_of. rewrite length_app. lia. }
  change (Z.of_nat (length (bytes DEFENDER_API_PREFIX)))
    with DEFENDER_API_PREFIX_LENGTH in Hq.
  rewrite Hq. unfold index_addr in Hq.
  destruct (in_bounds obj (ofs + DEFENDER_API_PREFIX_LENGTH) 0); [|discriminate].
  injection Hq as <-. now destruct nm, ln.
Qed.

(** A topic that does not parse is not matched. *)
Lemma Defender_MatchTopic_no_parse (pTopic : ptr) (topicLength : Z)
    (bs : list ascii) (a : DefenderTopic_t) (nm : option ptr) (ln : option Z) :
  load_bytes pTopic topicLength = Some bs ->
  topicLength <= UINT16_MAX ->
  parse_topic bs = None ->
  Defender_MatchTopic pTopic topicLength (Some a) nm ln
  = Some (DefenderNoMatch, mkMatchOutputs (Some DefenderInvalidTopic) nm ln).
Proof.
  intros H Hsz Hp. now rewrite (Defender_MatchTopic_parse _ _ _ a nm ln H Hsz), Hp.
Qed.

(** Every topic string ends in the last byte of its API string, which is
    one of n, d and r. *)
Lemma topic_of_last (id : list ascii) (api : DefenderTopic_t) :
  valid_api api = true ->
  exists init c, topic_of id api = init ++ [c]
                 /\ (c = "n" \/ c = "d" \/ c = "r")%char.
Proof.
  intros Hv.
  assert (exists init c, bytes (apiTopic api) = init ++ [c]
                         /\ (c = "n" \/ c = "d" \/ c = "r")%char)
    as (init & c & Hi & Hc).
  { destruct api; try discriminate;
      match goal with
      | |- context [bytes (apiTopic ?x)] =>
          exists (removelast (bytes (apiTopic x))), (last (bytes (apiTopic x)) zero)
      end; (split; [reflexivity|auto]). }
  exists (bytes DEFENDER_API_PREFIX ++ id ++ bytes DEFENDER_API_BRIDGE ++ init), c.
  split; trivial. unfold topic_of. now rewrite Hi, <- !app_assoc.
Qed.

Lemma parse_topic_slash_free_rest (rest : list ascii) :
  slash_free rest = true ->
  parse_topic (bytes DEFENDER_API_PREFIX ++ rest) = None.
Proof.
  intros Hsf. unfold parse_topic.
  rewrite starts_with_app, skipn_app_length.
  rewrite (slash_index_slash_free _ Hsf).
  destruct (0 <? length rest)%nat; trivial.
  now rewrite skipn_all.
Qed.

End MatchTopic.

(** * [Defender_GetTopic] writes the topic string *)

Section GetTopic.

Implicit Types (pre old post id : list ascii).

Lemma list_split_length (l : list ascii) (a b : nat) :
  length l = (a + b)%nat ->
  exists x y, l = x ++ y /\ length x = a /\ length y = b.
Proof.
  intros H. destruct (list_split_at l a) as (x & y & -> & Hx); [lia|].
  exists x, y. rewrite length_app in H. repeat split; lia.
Qed.

Lemma getTopicLength_closed_form (thingNameLength : Z) (api : DefenderTopic_t) :
  1 <= thingNameLength <= DEFENDER_THINGNAME_MAX_LENGTH ->
  valid_api api = true ->
  getTopicLength thingNameLength api
  = Some (DEFENDER_API_PREFIX_LENGTH + thingNameLength + DEFENDER_API_BRIDGE_LENGTH
          + STRING_LITERAL_LENGTH (apiTopic api)).
Proof.
  unfold DEFENDER_THINGNAME_MAX_LENGTH. intros Hn Hv. unfold getTopicLength.
  rewrite Hv.
  replace (thingNameLength =? 0) with false by (symmetry; apply Z.eqb_neq; lia).
  replace (thingNameLength <=? DEFENDER_THINGNAME_MAX_LENGTH) with true
    by (symmetry; apply Z.leb_le; unfold DEFENDER_THINGNAME_MAX_LENGTH; lia).
  cbn [negb andb c_assert]. f_equal.
  destruct api; try discriminate;
    unfold DEFENDER_API_JSON_REPORT_PUBLISH_LENGTH,
      DEFENDER_API_JSON_REPORT_ACCEPTED_LENGTH,
      DEFENDER_API_JSON_REPORT_REJECTED_LENGTH,
      DEFENDER_API_CBOR_REPORT_PUBLISH_LENGTH,
      DEFENDER_API_CBOR_REPORT_ACCEPTED_LENGTH,
      DEFENDER_API_CBOR_REPORT_REJECTED_LENGTH,
      DEFENDER_API_COMMON_LENGTH;
    change DEFENDER_API_PREFIX_LENGTH with 12;
    change DEFENDER_API_BRIDGE_LENGTH with 18;
    change DEFENDER_API_JSON_REPORT_FORMAT_LENGTH with 4;
    change DEFENDER_API_CBOR_REPORT_FORMAT_LENGTH with 4;
    change DEFENDER_API_ACCEPTED_SUFFIX_LENGTH with 9;
    change DEFENDER_API_REJECTED_SUFFIX_LENGTH with 9;
    change DEFENDER_API_NULL_SUFFIX_LENGTH with 0;
    match goal with
    | |- context [STRING_LITERAL_LENGTH ?s] =>
        let v := eval vm_compute in (STRING_LITERAL_LENGTH s) in
        change (STRING_LITERAL_LENGTH s) with v
    end;
    (rewrite u32_small by (unfold UINT32_MAX; lia)); lia.
Qed.

(** Two [memcpy] calls in a row: the format at [pBuffer], the suffix at
    [&( pBuffer[ formatLength ] )]. *)
Lemma memcpy_format_suffix_at pre old post (f s : string) :
  length old = (length (bytes f) + length (bytes s))%nat ->
  (o <- memcpy (Ptr (pre ++ old ++ post) (Z.of_nat (length pre)))
          (literal f) (STRING_LITERAL_LENGTH f) ;;
   d <- index_addr (viewing (Ptr (pre ++ old ++ post) (Z.of_nat (length pre))) o)
          (STRING_LITERAL_LENGTH f) ;;
   memcpy d (literal s) (STRING_LITERAL_LENGTH s))
  = Some (pre ++ (bytes f ++ bytes s) ++ post).
Proof.
  intros Hl. destruct (list_split_length _ _ _ Hl) as (o1 & o2 & -> & H1 & H2).
  rewrite (memcpy_at _ _ pre o1 (o2 ++ post) _ _ (bytes f) (load_literal f));
    [| now rewrite <- app_assoc | reflexivity
     | rewrite STRING_LITERAL_LENGTH_bytes; lia].
  cbn [viewing].
  rewrite index_addr_at
    by (rewrite STRING_LITERAL_LENGTH_bytes, !length_app; lia).
  rewrite (memcpy_at _ _ (pre ++ bytes f) o2 post _ _ (bytes s) (load_literal s)).
  - f_equal. now rewrite <- !app_assoc.
  - now rewrite <- !app_assoc.
  - rewrite STRING_LITERAL_LENGTH_bytes, length_app. lia.
  - rewrite STRING_LITERAL_LENGTH_bytes. lia.
Qed.

Lemma writeFormatAndSuffix_at pre old post (api : DefenderTopic_t) :
  valid_api api = true ->
  length old = length (bytes (apiTopic api)) ->
  writeFormatAndSuffix (Ptr (pre ++ old ++ post) (Z.of_nat (length pre))) api
  = Some (pre ++ bytes (apiTopic api) ++ post).
Proof.
  intros Hv Hl. unfold writeFormatAndSuffix. rewrite Hv.
  cbn [is_null negb c_assert].
  destruct api; try discriminate.
  - apply memcpy_at with (old := old);
      [apply load_literal | reflexivity | reflexivity | now rewrite Hl].
  - now apply (memcpy_format_suffix_at pre old post
                 DEFENDER_API_JSON_REPORT_FORMAT DEFENDER_API_ACCEPTED_SUFFIX).
  - now apply (memcpy_format_suffix_at pre old post
                 DEFENDER_API_JSON_REPORT_FORMAT DEFENDER_API_REJECTED_SUFFIX).
  - apply memcpy_at with (old := old);
      [apply load_literal | reflexivity | reflexivity | now rewrite Hl].
  - now apply (memcpy_format_suffix_at pre old post
                 DEFENDER_API_CBOR_REPORT_FORMAT DEFENDER_API_ACCEPTED_SUFFIX).
  - now apply (memcpy_format_suffix_at pre old post
                 DEFENDER_API_CBOR_REPORT_FORMAT DEFENDER_API_REJECTED_SUFFIX).
Qed.

Lemma Defender_GetTopic_success pre old post (bufferLength : Z)
    (pThingName : ptr) (thingNameLength : Z) id (api : DefenderTopic_t) (l0 : Z) :
  load_bytes pThingName thingNameLength = Some id ->
  1 <= thingNameLength <= DEFENDER_THINGNAME_MAX_LENGTH ->
  valid_api api = true ->
  length old = length (topic_of id api) ->
  Z.of_nat (length old) <= bufferLength ->
  Defender_GetTopic (Ptr (pre ++ old ++ post) (Z.of_nat (length pre))) bufferLength
    pThingName thingNameLength api (Some l0)
  = Some (DefenderSuccess,
          Ptr (pre ++ topic_of id api ++ post) (Z.of_nat (length pre)),
          Some (Z.of_nat (length (topic_of id api)))).
Proof.
  intros Hid Hn Hv Hl Hbuf.
  pose proof (load_bytes_length _ _ _ Hid) as Hidl.
  assert (Hlt : length (topic_of id api)
                = (12 + (length id + (18 + length (bytes (apiTopic api)))))%nat).
  { unfold topic_of. now rewrite !length_app. }
  rewrite Hlt in Hl.
  destruct (list_split_length _ _ _ Hl) as (o1 & o' & -> & H1 & Hl').
  destruct (list_split_length _ _ _ Hl') as (o2 & o'' & -> & H2 & Hl'').
  destruct (list_split_length _ _ _ Hl'') as (o3 & o4 & -> & H3 & H4).
  unfold Defender_GetTopic.
  rewrite (load_bytes_not_null _ _ _ Hid).
  replace (thingNameLength =? 0) with false by (symmetry; apply Z.eqb_neq; lia).
  replace (DEFENDER_THINGNAME_MAX_LENGTH <? thingNameLength) with false
    by (symmetry; apply Z.ltb_ge; lia).
  unfold valid_api in Hv. apply andb_true_iff in Hv. destruct Hv as [Hv1 Hv2].
  replace (topic_value api <=? topic_value DefenderInvalidTopic) with false
    by (symmetry; apply Z.leb_gt; now apply Z.ltb_lt).
  replace (topic_value DefenderMaxTopic <=? topic_value api) with false
    by (symmetry; apply Z.leb_gt; now apply Z.ltb_lt).
  cbn [is_null slot_is_null orb status_eqb].
  assert (Hv : valid_api api = true)
    by (unfold valid_api; now rewrite Hv1, Hv2).
  rewrite (getTopicLength_closed_form _ _ Hn Hv).
  change DEFENDER_API_PREFIX_LENGTH with 12.
  change DEFENDER_API_BRIDGE_LENGTH with 18.
  rewrite STRING_LITERAL_LENGTH_bytes.
  unfold DEFENDER_THINGNAME_MAX_LENGTH in Hn.
  rewrite !length_app in Hbuf.
  replace (bufferLength <? _) with false by (symmetry; apply Z.ltb_ge; lia).
  cbn [status_eqb].
  (* prefix *)
  rewrite index_addr_at by (rewrite !length_app; lia).
  rewrite Z.add_0_r.
  rewrite (memcpy_at _ _ pre o1 (o2 ++ o3 ++ o4 ++ post) _ _ _
             (load_literal DEFENDER_API_PREFIX));
    [| now rewrite <- !app_assoc | reflexivity
     | rewrite STRING_LITERAL_LENGTH_bytes; change (length (bytes DEFENDER_API_PREFIX)) with 12%nat; lia].
  cbn [viewing]. change (0 + 12) with 12.
  rewrite (u32_small 12) by (unfold UINT32_MAX; lia).
  (* thing name *)
  rewrite index_addr_at
    by (rewrite !length_app; change (length (bytes DEFENDER_API_PREFIX)) with 12%nat; lia).
  rewrite (memcpy_at _ _ (pre ++ bytes DEFENDER_API_PREFIX) o2 (o3 ++ o4 ++ post)
             _ _ _ Hid);
    [| now rewrite <- !app_assoc
     | rewrite length_app; change (length (bytes DEFENDER_API_PREFIX)) with 12%nat; lia
     | lia].
  cbn [viewing].
  rewrite (u32_small (12 + thingNameLength)) by (unfold UINT32_MAX; lia).
  (* bridge *)
  rewrite index_addr_at
    by (rewrite !length_app; change (length (bytes DEFENDER_API_PREFIX)) with 12%nat; lia).
  rewrite (memcpy_at _ _ ((pre ++ bytes DEFENDER_API_PREFIX) ++ id) o3 (o4 ++ post)
             _ _ _ (load_literal DEFENDER_API_BRIDGE));
    [| now rewrite <- !app_assoc
     | rewrite !length_app; change (length (bytes DEFENDER_API_PREFIX)) with 12%nat; lia
     | rewrite STRING_LITERAL_LENGTH_bytes; change (length (bytes DEFENDER_API_BRIDGE)) with 18%nat; lia].
  cbn [viewing]. change DEFENDER_API_BRIDGE_LENGTH with 18.
  rewrite (u32_small (12 + thingNameLength + 18)) by (unfold UINT32_MAX; lia).
  (* format and suffix *)
  rewrite index_addr_at
    by (rewrite !length_app;
        change (length (bytes DEFENDER_API_PREFIX)) with 12%nat;
        change (length (bytes DEFENDER_API_BRIDGE)) with 18%nat; lia).
  replace (Z.of_nat (length pre) + (12 + thingNameLength + 18))
    with (Z.of_nat (length (((pre ++ bytes DEFENDER_API_PREFIX) ++ id)
                             ++ bytes DEFENDER_API_BRIDGE)))
    by (rewrite !length_app;
        change (length (bytes DEFENDER_API_PREFIX)) with 12%nat;
        change (length (bytes DEFENDER_API_BRIDGE)) with 18%nat; lia).
  replace (((pre ++ bytes DEFENDER_API_PREFIX) ++ id)
             ++ bytes DEFENDER_API_BRIDGE ++ o4 ++ post)
    with ((((pre ++ bytes DEFENDER_API_PREFIX) ++ id)
             ++ bytes DEFENDER_API_BRIDGE) ++ o4 ++ post)
    by now rewrite <- !app_assoc.
  rewrite (writeFormatAndSuffix_at _ o4 post api Hv H4).
  cbn [slot_store]. unfold topic_of.
  rewrite <- !app_assoc, !length_app.
  do 3 f_equal.
  change (length (bytes DEFENDER_API_PREFIX)) with 12%nat;
  change (length (bytes DEFENDER_API_BRIDGE)) with 18%nat. lia.
Qed.

Lemma apiTopic_format_suffix (api : DefenderTopic_t) :
  valid_api api = true ->
  bytes (apiTopic api) = bytes (apiFormat api) ++ bytes (apiSuffix api).
Proof. destruct api; try discriminate; reflexivity. Qed.

Lemma requiredLength_topic_of (thingNameLength : Z) id (api : DefenderTopic_t) :
  valid_api api = true ->
  thingNameLength = Z.of_nat (length id) ->
  requiredLength thingNameLength api = Z.of_nat (length (topic_of id api)).
Proof.
  intros Hv ->. unfold requiredLength, DEFENDER_API_COMMON_LENGTH, topic_of.
  rewrite !length_app, (apiTopic_format_suffix _ Hv), length_app.
  rewrite !STRING_LITERAL_LENGTH_bytes. unfold DEFENDER_API_PREFIX_LENGTH,
    DEFENDER_API_BRIDGE_LENGTH. rewrite !STRING_LITERAL_LENGTH_bytes. lia.
Qed.

Lemma getTopicLength_required (thingNameLength : Z) (api : DefenderTopic_t) :
  1 <= thingNameLength <= DEFENDER_THINGNAME_MAX_LENGTH ->
  valid_api api = true ->
  getTopicLength thingNameLength api = Some (requiredLength thingNameLength api).
Proof.
  intros Hn Hv. rewrite (getTopicLength_closed_form _ _ Hn Hv). f_equal.
  unfold requiredLength, DEFENDER_API_COMMON_LENGTH.
  rewrite !STRING_LITERAL_LENGTH_bytes, (apiTopic_format_suffix _ Hv), length_app.
  lia.
Qed.

(** The same for a buffer given by its bounds: the call writes the topic
    at [pBuffer] and nothing else. *)
Lemma Defender_GetTopic_writes obj ofs (bufferLength : Z)
    (pThingName : ptr) (thingNameLength : Z) id (api : DefenderTopic_t) (l0 : Z) :
  in_bounds obj ofs bufferLength = true ->
  load_bytes pThingName thingNameLength = Some id ->
  1 <= thingNameLength <= DEFENDER_THINGNAME_MAX_LENGTH ->
  valid_api api = true ->
  requiredLength thingNameLength api <= bufferLength ->
  exists pre old post,
    obj = pre ++ old ++ post /\ ofs = Z.of_nat (length pre)
    /\ length old = length (topic_of id api)
    /\ Defender_GetTopic (Ptr obj ofs) bufferLength pThingName thingNameLength
         api (Some l0)
       = Some (DefenderSuccess, Ptr (pre ++ topic_of id api ++ post) ofs,
               Some (requiredLength thingNameLength api)).
Proof.
  intros Hb Hid Hn Hv Hreq.
  rewrite (requiredLength_topic_of _ id _ Hv (load_bytes_length _ _ _ Hid)) in *.
  apply in_bounds_iff in Hb. destruct Hb as (Hofs & _ & Hle).
  destruct (list_split_at obj (Z.to_nat ofs)) as (pre & rest & -> & Hpre); [lia|].
  rewrite length_app in Hle.
  destruct (list_split_at rest (length (topic_of id api)))
    as (old & post & -> & Hold); [lia|].
  exists pre, old, post. repeat split; trivial; [lia|].
  replace ofs with (Z.of_nat (length pre)) by lia.
  apply Defender_GetTopic_success; trivial. lia.
Qed.

Lemma Defender_GetTopic_too_small (pBuffer : ptr) (bufferLength : Z)
    (pThingName : ptr) (thingNameLength : Z) (api : DefenderTopic_t) (l0 : Z) :
  is_null pBuffer = false -> is_null pThingName = false ->
  1 <= thingNameLength <= DEFENDER_THINGNAME_MAX_LENGTH ->
  valid_api api = true ->
  bufferLength < requiredLength thingNameLength api ->
  Defender_GetTopic pBuffer bufferLength pThingName thingNameLength api (Some l0)
  = Some (DefenderBufferTooSmall, pBuffer, Some l0).
Proof.
  intros Hb Hp Hn Hv Hlt. unfold Defender_GetTopic. rewrite Hb, Hp.
  rewrite (getTopicLength_required _ _ Hn Hv).
  unfold DEFENDER_THINGNAME_MAX_LENGTH in *.
  replace (thingNameLength =? 0) with false by (symmetry; apply Z.eqb_neq; lia).
  replace (128 <? thingNameLength) with false by (symmetry; apply Z.ltb_ge; lia).
  unfold valid_api in Hv. apply andb_true_iff in Hv. destruct Hv as [Hv1 Hv2].
  replace (topic_value api <=? topic_value DefenderInvalidTopic) with false
    by (symmetry; apply Z.leb_gt; now apply Z.ltb_lt).
  replace (topic_value DefenderMaxTopic <=? topic_value api) with false
    by (symmetry; apply Z.leb_gt; now apply Z.ltb_lt).
  cbn [slot_is_null orb status_eqb].
  replace (bufferLength <? _) with true by (symmetry; now apply Z.ltb_lt).
  reflexivity.
Qed.

End GetTopic.

(** * The properties of the specification *)

(** C2: for a buffer of [bufferLength] bytes, a thing name of length in
    [1,128] and a valid API, [Defender_GetTopic] returns; when it returns
    [DefenderSuccess] (which it does exactly when the buffer has room for the
    required length) the first [requiredLength] bytes of the buffer are, in
    order, the prefix, the thing name bytes as they are, the bridge, the
    format and the suffix, and [*pOutLength] is
    [requiredLength = prefixLen + thingNameLength + bridgeLen + formatLen + suffixLen]. *)
Theorem C2_GetTopic_writes_topic obj ofs (bufferLength : Z) (pThingName : ptr)
    (thingNameLength : Z) (id : list ascii) (api : DefenderTopic_t) (l0 : Z) :
  in_bounds obj ofs bufferLength = true ->
  load_bytes pThingName thingNameLength = Some id ->
  1 <= thingNameLength <= DEFENDER_THINGNAME_MAX_LENGTH ->
  valid_api api = true ->
  exists ret pBuffer' pOutLength',
    Defender_GetTopic (Ptr obj ofs) bufferLength pThingName thingNameLength api (Some l0)
    = Some (ret, pBuffer', pOutLength')
    /\ (ret = DefenderSuccess <-> requiredLength thingNameLength api <= bufferLength)
    /\ (ret = DefenderSuccess ->
        load_bytes pBuffer' (requiredLength thingNameLength api)
        = Some (bytes DEFENDER_API_PREFIX ++ id ++ bytes DEFENDER_API_BRIDGE
                ++ bytes (apiFormat api) ++ bytes (apiSuffix api))
        /\ pOutLength' = Some (requiredLength thingNameLength api)
        /\ requiredLength thingNameLength api
           = DEFENDER_API_PREFIX_LENGTH + thingNameLength + DEFENDER_API_BRIDGE_LENGTH
             + STRING_LITERAL_LENGTH (apiFormat api)
             + STRING_LITERAL_LENGTH (apiSuffix api)).
Proof.
  intros Hb Hid Hn Hv.
  destruct (Z.le_gt_cases (requiredLength thingNameLength api) bufferLength)
    as [Hle|Hgt].
  - destruct (Defender_GetTopic_writes _ _ _ _ _ id _ l0 Hb Hid Hn Hv Hle)
      as (pre & old & post & Hobj & Hofs & Hold & Hcall).
    do 3 eexists. split; [exact Hcall|]. split; [tauto|]. intros _.
    repeat split.
    + rewrite <- (apiTopic_format_suffix _ Hv).
      apply load_bytes_at with (pre := pre) (post := post); trivial.
      apply requiredLength_topic_of; trivial.
      now apply load_bytes_length in Hid.
  - exists DefenderBufferTooSmall, (Ptr obj ofs), (Some l0). split.
    + apply Defender_GetTopic_too_small; trivial.
      now rewrite (load_bytes_not_null _ _ _ Hid).
    + split; [|discriminate]. split; [discriminate|lia].
Qed.

Lemma C2_witness :
  in_bounds example_buffer 0 64 = true
  /\ load_bytes (Ptr example_thing 0) 7 = Some example_thing
  /\ 1 <= 7 <= DEFENDER_THINGNAME_MAX_LENGTH
  /\ valid_api DefenderCborReportAccepted = true
  /\ exists ret pBuffer' pOutLength',
       Defender_GetTopic (Ptr example_buffer 0) 64 (Ptr example_thing 0) 7
         DefenderCborReportAccepted (Some 0)
       = Some (ret, pBuffer', pOutLength')
       /\ (ret = DefenderSuccess <-> requiredLength 7 DefenderCborReportAccepted <= 64)
       /\ (ret = DefenderSuccess ->
           load_bytes pBuffer' (requiredLength 7 DefenderCborReportAccepted)
           = Some (bytes DEFENDER_API_PREFIX ++ example_thing
                   ++ bytes DEFENDER_API_BRIDGE
                   ++ bytes (apiFormat DefenderCborReportAccepted)
                   ++ bytes (apiSuffix DefenderCborReportAccepted))
           /\ pOutLength' = Some (requiredLength 7 DefenderCborReportAccepted)
           /\ requiredLength 7 DefenderCborReportAccepted
              = DEFENDER_API_PREFIX_LENGTH + 7 + DEFENDER_API_BRIDGE_LENGTH
                + STRING_LITERAL_LENGTH (apiFormat DefenderCborReportAccepted)
                + STRING_LITERAL_LENGTH (apiSuffix DefenderCborReportAccepted)).
Proof.
  assert (H1 : in_bounds example_buffer 0 64 = true) by reflexivity.
  assert (H2 : load_bytes (Ptr example_thing 0) 7 = Some example_thing) by reflexivity.
  assert (H3 : 1 <= 7 <= DEFENDER_THINGNAME_MAX_LENGTH)
    by (unfold DEFENDER_THINGNAME_MAX_LENGTH; lia).
  assert (H4 : valid_api DefenderCborReportAccepted = true) by reflexivity.
  exact (conj H1 (conj H2 (conj H3 (conj H4
    (C2_GetTopic_writes_topic example_buffer 0 64 (Ptr example_thing 0) 7
       example_thing DefenderCborReportAccepted 0 H1 H2 H3 H4))))).
Defined.

(** C5: for a thing name of length in [1,128] and a valid API,
    [Defender_GetTopic] with [bufferLength] equal to the required length
    returns [DefenderSuccess]; with [bufferLength] one less it returns
    [DefenderBufferTooSmall] and neither the buffer nor [*pOutLength] has
    changed. *)
Theorem C5_GetTopic_exact_length obj ofs (pThingName : ptr) (thingNameLength : Z)
    (id : list ascii) (api : DefenderTopic_t) (l0 : Z) :
  load_bytes pThingName thingNameLength = Some id ->
  1 <= thingNameLength <= DEFENDER_THINGNAME_MAX_LENGTH ->
  valid_api api = true ->
  in_bounds obj ofs (requiredLength thingNameLength api) = true ->
  (exists obj',
     Defender_GetTopic (Ptr obj ofs) (requiredLength thingNameLength api)
       pThingName thingNameLength api (Some l0)
     = Some (DefenderSuccess, Ptr obj' ofs, Some (requiredLength thingNameLength api)))
  /\ Defender_GetTopic (Ptr obj ofs) (requiredLength thingNameLength api - 1)
       pThingName thingNameLength api (Some l0)
     = Some (DefenderBufferTooSmall, Ptr obj ofs, Some l0).
Proof.
  intros Hid Hn Hv Hb. split.
  - destruct (Defender_GetTopic_writes _ _ _ _ _ id _ l0 Hb Hid Hn Hv (Z.le_refl _))
      as (pre & old & post & _ & _ & _ & Hcall).
    eexists. exact Hcall.
  - apply Defender_GetTopic_too_small; trivial; [|lia].
    now rewrite (load_bytes_not_null _ _ _ Hid).
Qed.

Lemma C5_witness :
  load_bytes (Ptr example_thing 0) 7 = Some example_thing
  /\ 1 <= 7 <= DEFENDER_THINGNAME_MAX_LENGTH
  /\ valid_api DefenderJsonReportRejected = true
  /\ in_bounds example_buffer 0 (requiredLength 7 DefenderJsonReportRejected) = true
  /\ (exists obj',
        Defender_GetTopic (Ptr example_buffer 0)
          (requiredLength 7 DefenderJsonReportRejected)
          (Ptr example_thing 0) 7 DefenderJsonReportRejected (Some 0)
        = Some (DefenderSuccess, Ptr obj' 0,
                Some (requiredLength 7 DefenderJsonReportRejected)))
  /\ Defender_GetTopic (Ptr example_buffer 0)
       (requiredLength 7 DefenderJsonReportRejected - 1)
       (Ptr example_thing 0) 7 DefenderJsonReportRejected (Some 0)
     = Some (DefenderBufferTooSmall, Ptr example_buffer 0, Some 0).
Proof.
  assert (H1 : load_bytes (Ptr example_thing 0) 7 = Some example_thing) by reflexivity.
  assert (H2 : 1 <= 7 <= DEFENDER_THINGNAME_MAX_LENGTH)
    by (unfold DEFENDER_THINGNAME_MAX_LENGTH; lia).
  assert (H3 : valid_api DefenderJsonReportRejected = true) by reflexivity.
  assert (H4 : in_bounds example_buffer 0
                 (requiredLength 7 DefenderJsonReportRejected) = true) by reflexivity.
  exact (conj H1 (conj H2 (conj H3 (conj H4
    (C5_GetTopic_exact_length example_buffer 0 (Ptr example_thing 0) 7
       example_thing DefenderJsonReportRejected 0 H1 H2 H3 H4))))).
Defined.

(** C9: [Defender_GetTopic] returns [DefenderBadParameter] when
    [pOutLength] is [NULL], whatever the other arguments are, and writes
    nothing. *)
Theorem C9_GetTopic_null_pOutLength (pBuffer : ptr) (bufferLength : Z)
    (pThingName : ptr) (thingNameLength : Z) (api : DefenderTopic_t) :
  Defender_GetTopic pBuffer bufferLength pThingName thingNameLength api None
  = Some (DefenderBadParameter, pBuffer, None).
Proof.
  unfold Defender_GetTopic. cbn [slot_is_null]. rewrite orb_true_r. reflexivity.
Qed.

(** C10: with a [NULL] topic and a variant slot, [Defender_MatchTopic]
    returns [DefenderBadParameter] and leaves [*pOutApi], like the other
    two slots, as it was. *)
Theorem C10_MatchTopic_bad_parameter_keeps_api (topicLength : Z)
    (a : DefenderTopic_t) (ppOutThingName : option ptr)
    (pOutThingNameLength : option Z) :
  Defender_MatchTopic NULL topicLength (Some a) ppOutThingName pOutThingNameLength
  = Some (DefenderBadParameter,
          mkMatchOutputs (Some a) ppOutThingName pOutThingNameLength).
Proof. reflexivity. Qed.

(** C7: whenever [Defender_MatchTopic], called with a variant slot,
    returns [DefenderNoMatch], [*pOutApi] is [DefenderInvalidTopic] and the
    slots for the thing name pointer and length are as they were. *)
Theorem C7_MatchTopic_no_match_outputs (pTopic : ptr) (topicLength : Z)
    (a : DefenderTopic_t) (ppOutThingName : option ptr)
    (pOutThingNameLength : option Z) (out : MatchOutputs) :
  Defender_MatchTopic pTopic topicLength (Some a) ppOutThingName pOutThingNameLength
  = Some (DefenderNoMatch, out) ->
  out = mkMatchOutputs (Some DefenderInvalidTopic) ppOutThingName pOutThingNameLength.
Proof.
  unfold Defender_MatchTopic.
  repeat match goal with
         | |- match ?c with Some _ => _ | None => None end = _ -> _ =>
             destruct c as [?|] eqn:?; [|discriminate]
         | |- (let '(_, _) := ?c in _) = _ -> _ => destruct c
         end.
  intros [= -> <-]. cbn [status_eqb] in *.
  match goal with H : Some (_, _) = Some (_, _) |- _ => injection H as <- <- end.
  match goal with
  | H : slot_store ?o _ = Some _ |- _ => destruct o; [|discriminate]; injection H as <-
  end.
  reflexivity.
Qed.

Lemma C7_witness :
  Defender_MatchTopic (Ptr (bytes "$aws/things/MyThing") 0) 19
    (Some DefenderJsonReportPublish) (Some (Ptr example_thing 3)) (Some 99)
  = Some (DefenderNoMatch,
          mkMatchOutputs (Some DefenderInvalidTopic)
            (Some (Ptr example_thing 3)) (Some 99))
  /\ mkMatchOutputs (Some DefenderInvalidTopic) (Some (Ptr example_thing 3)) (Some 99)
     = mkMatchOutputs (Some DefenderInvalidTopic) (Some (Ptr example_thing 3)) (Some 99).
Proof.
  assert (H : Defender_MatchTopic (Ptr (bytes "$aws/things/MyThing") 0) 19
                (Some DefenderJsonReportPublish) (Some (Ptr example_thing 3)) (Some 99)
              = Some (DefenderNoMatch,
                      mkMatchOutputs (Some DefenderInvalidTopic)
                        (Some (Ptr example_thing 3)) (Some 99)))
    by reflexivity.
  exact (conj H (C7_MatchTopic_no_match_outputs _ _ _ _ _ _ H)).
Defined.

(** C8, as the code has it: in the thing name stage, a forward slash at
    position 0 makes the stage fail with [DefenderNoMatch], and so does an
    empty remainder; when the remaining bytes are not empty and hold no
    forward slash at all, the stage itself succeeds and takes all of them as
    the thing name, and it is the match as a whole that fails with
    [DefenderNoMatch]. *)
Theorem C8_extractThingNameLength_cases :
  (forall p n bs v,
     load_bytes p n = Some bs -> n <= UINT16_MAX ->
     bs = [] \/ hd_error bs = Some "/"%char ->
     extractThingNameLength p n (Some v) = Some (DefenderNoMatch, Some v))
  /\ (forall p n bs v,
        load_bytes p n = Some bs -> n <= UINT16_MAX ->
        bs <> [] -> slash_free bs = true ->
        extractThingNameLength p n (Some v) = Some (DefenderSuccess, Some n))
  /\ (forall pTopic topicLength bs a nm ln,
        load_bytes pTopic topicLength = Some (bytes DEFENDER_API_PREFIX ++ bs) ->
        topicLength <= UINT16_MAX ->
        slash_free bs = true ->
        Defender_MatchTopic pTopic topicLength (Some a) nm ln
        = Some (DefenderNoMatch, mkMatchOutputs (Some DefenderInvalidTopic) nm ln)).
Proof.
  split; [|split].
  - intros p n bs v H Hsz Hbs.
    rewrite (extractThingNameLength_slash_index _ _ _ v H Hsz).
    destruct Hbs as [->|Hhd]; [reflexivity|].
    destruct bs as [|c bs]; [discriminate|]. injection Hhd as ->. reflexivity.
  - intros p n bs v H Hsz Hne Hsf.
    rewrite (extractThingNameLength_slash_index _ _ _ v H Hsz).
    rewrite (slash_index_slash_free _ Hsf), <- (load_bytes_length _ _ _ H).
    destruct bs; [congruence|reflexivity].
  - intros pTopic topicLength bs a nm ln H Hsz Hsf.
    apply (Defender_MatchTopic_no_parse _ _ _ _ _ _ H Hsz).
    now apply parse_topic_slash_free_rest.
Qed.

Lemma C8_witness :
  (extractThingNameLength (Ptr (bytes "$aws/things//defender/metrics/json") 12) 22 (Some 5)
   = Some (DefenderNoMatch, Some 5))
  /\ (extractThingNameLength (Ptr (bytes "$aws/things/MyThing") 12) 7 (Some 5)
      = Some (DefenderSuccess, Some 7))
  /\ (Defender_MatchTopic (Ptr (bytes "$aws/things/MyThing") 0) 19
        (Some DefenderCborReportPublish) (Some NULL) (Some 5)
      = Some (DefenderNoMatch,
              mkMatchOutputs (Some DefenderInvalidTopic) (Some NULL) (Some 5))).
Proof.
  destruct C8_extractThingNameLength_cases as (Hslash & Hnone & Hwhole).
  split; [|split].
  - apply (Hslash _ _ (bytes "/defender/metrics/json"));
      [reflexivity | unfold UINT16_MAX; lia | right; reflexivity].
  - apply (Hnone _ _ (bytes "MyThing"));
      [reflexivity | unfold UINT16_MAX; lia | discriminate | reflexivity].
  - apply (Hwhole _ _ (bytes "MyThing"));
      [reflexivity | unfold UINT16_MAX; lia | reflexivity].
Defined.

(** C8 as stated fails: the remaining bytes [MyThing] of the topic
    [$aws/things/MyThing] hold no forward slash, and the stage returns
    [DefenderSuccess] with thing name length 7. *)
Lemma C8_counterexample :
  slash_free (bytes "MyThing") = true
  /\ extractThingNameLength (Ptr (bytes "$aws/things/MyThing") 12) 7 (Some 0)
     = Some (DefenderSuccess, Some 7)
  /\ DefenderSuccess <> DefenderNoMatch.
Proof. repeat split; discriminate. Qed.

(** C6: the variant stage returns [DefenderSuccess] exactly when the
    remaining bytes are one of the six API strings, in length and content,
    and [DefenderNoMatch] otherwise; and for every thing name T the topic
    [$aws/things/T/defender/metrics/json2], of a length that fits the
    [uint16_t] parameter, is not matched. *)
Theorem C6_matchApi_exact :
  (forall p n bs a,
     load_bytes p n = Some bs ->
     exists ret slot,
       matchApi p n (Some a) = Some (ret, slot)
       /\ (ret = DefenderSuccess \/ ret = DefenderNoMatch)
       /\ (ret = DefenderSuccess <->
           In bs (map bytes [ "json"; "json/accepted"; "json/rejected";
                              "cbor"; "cbor/accepted"; "cbor/rejected" ]%string)))
  /\ (forall pTopic topicLength T a nm ln,
        load_bytes pTopic topicLength
        = Some (bytes DEFENDER_API_PREFIX ++ T ++ bytes "/defender/metrics/json2") ->
        topicLength <= UINT16_MAX ->
        Defender_MatchTopic pTopic topicLength (Some a) nm ln
        = Some (DefenderNoMatch, mkMatchOutputs (Some DefenderInvalidTopic) nm ln)).
Proof.
  split.
  - intros p n bs a H. rewrite (matchApi_lookup_api _ _ _ a H).
    destruct (lookup_api bs) as [api|] eqn:Hl.
    + exists DefenderSuccess, (Some api). split; [reflexivity|]. split; [now left|].
      split; [intros _|reflexivity].
      apply lookup_api_inv in Hl. destruct Hl as [Hv ->].
      destruct api; try discriminate; simpl; tauto.
    + exists DefenderNoMatch, (Some a). split; [reflexivity|]. split; [now right|].
      split; [discriminate|]. intros Hin. exfalso.
      simpl in Hin.
      repeat (destruct Hin as [<-|Hin]; [discriminate Hl|]). exact Hin.
  - intros pTopic topicLength T a nm ln H Hsz.
    apply (Defender_MatchTopic_no_parse _ _ _ _ _ _ H Hsz).
    destruct (parse_topic _) as [[api k]|] eqn:Hp; [exfalso|reflexivity].
    apply parse_topic_inv in Hp. destruct Hp as (id & Heq & _ & _ & _ & Hv).
    destruct (topic_of_last id api Hv) as (init & c & Hinit & Hc).
    rewrite Hinit in Heq.
    change (bytes "/defender/metrics/json2")
      with (bytes "/defender/metrics/json" ++ ["2"%char]) in Heq.
    rewrite !app_assoc in Heq. apply app_inj_tail in Heq. destruct Heq as [_ <-].
    destruct Hc as [Hc|[Hc|Hc]]; discriminate Hc.
Qed.

Lemma C6_witness :
  (exists ret slot,
     matchApi (Ptr (bytes "$aws/things/T/defender/metrics/cbor/rejected") 31) 13
       (Some DefenderInvalidTopic)
     = Some (ret, slot)
     /\ (ret = DefenderSuccess \/ ret = DefenderNoMatch)
     /\ (ret = DefenderSuccess <->
         In (bytes "cbor/rejected")
            (map bytes [ "json"; "json/accepted"; "json/rejected";
                         "cbor"; "cbor/accepted"; "cbor/rejected" ]%string)))
  /\ Defender_MatchTopic (Ptr (bytes "$aws/things/T/defender/metrics/json2") 0) 36
       (Some DefenderJsonReportPublish) (Some NULL) (Some 5)
     = Some (DefenderNoMatch,
             mkMatchOutputs (Some DefenderInvalidTopic) (Some NULL) (Some 5)).
Proof.
  destruct C6_matchApi_exact as (Hstage & Hjson2).
  split.
  - apply Hstage. reflexivity.
  - apply (Hjson2 _ _ (bytes "T")); [reflexivity | unfold UINT16_MAX; lia].
Defined.

(** C3: [Defender_MatchTopic] does not enforce the maximum thing name
    length: a topic string made of the prefix, a thing name of more than
    128 bytes that holds no forward slash, the bridge and the string of a
    valid API, whose length fits the [uint16_t] parameter, is matched with
    [DefenderSuccess]; the outputs are that API and, in the slots the
    caller passed, the address 12 bytes into the topic and the length of
    the thing name. *)
Theorem C3_MatchTopic_accepts_long_thing_name obj ofs (topicLength : Z)
    (id : list ascii) (api a : DefenderTopic_t)
    (ppOutThingName : option ptr) (pOutThingNameLength : option Z) :
  valid_api api = true ->
  DEFENDER_THINGNAME_MAX_LENGTH < Z.of_nat (length id) ->
  slash_free id = true ->
  load_bytes (Ptr obj ofs) topicLength
  = Some (bytes DEFENDER_API_PREFIX ++ id ++ bytes DEFENDER_API_BRIDGE
          ++ bytes (apiTopic api)) ->
  topicLength <= UINT16_MAX ->
  Defender_MatchTopic (Ptr obj ofs) topicLength (Some a)
    ppOutThingName pOutThingNameLength
  = Some (DefenderSuccess,
          mkMatchOutputs (Some api)
            (option_map (fun _ => Ptr obj (ofs + 12)) ppOutThingName)
            (option_map (fun _ => Z.of_nat (length id)) pOutThingNameLength)).
Proof.
  intros Hv Hlong Hsf H Hsz.
  apply (Defender_MatchTopic_topic_of obj ofs topicLength id api a
           ppOutThingName pOutThingNameLength);
    trivial.
  intros ->. unfold DEFENDER_THINGNAME_MAX_LENGTH in Hlong. simpl in Hlong. lia.
Qed.

Lemma C3_witness :
  valid_api DefenderCborReportAccepted = true
  /\ DEFENDER_THINGNAME_MAX_LENGTH < Z.of_nat (length long_thing)
  /\ slash_free long_thing = true
  /\ load_bytes (Ptr long_topic 0) 172
     = Some (bytes DEFENDER_API_PREFIX ++ long_thing ++ bytes DEFENDER_API_BRIDGE
             ++ bytes (apiTopic DefenderCborReportAccepted))
  /\ 172 <= UINT16_MAX
  /\ Defender_MatchTopic (Ptr long_topic 0) 172
       (Some DefenderInvalidTopic) (Some NULL) (Some 0)
     = Some (DefenderSuccess,
             mkMatchOutputs (Some DefenderCborReportAccepted)
               (option_map (fun _ => Ptr long_topic (0 + 12)) (Some NULL))
               (option_map (fun _ => Z.of_nat (length long_thing)) (Some 0))).
Proof.
  assert (H1 : valid_api DefenderCborReportAccepted = true) by reflexivity.
  assert (H2 : DEFENDER_THINGNAME_MAX_LENGTH < Z.of_nat (length long_thing))
    by reflexivity.
  assert (H3 : slash_free long_thing = true) by reflexivity.
  assert (H4 : load_bytes (Ptr long_topic 0) 172
               = Some (bytes DEFENDER_API_PREFIX ++ long_thing
                       ++ bytes DEFENDER_API_BRIDGE
                       ++ bytes (apiTopic DefenderCborReportAccepted)))
    by reflexivity.
  assert (H5 : 172 <= UINT16_MAX) by (unfold UINT16_MAX; lia).
  exact (conj H1 (conj H2 (conj H3 (conj H4 (conj H5
    (C3_MatchTopic_accepts_long_thing_name long_topic 0 172 long_thing
       DefenderCborReportAccepted DefenderInvalidTopic (Some NULL) (Some 0)
       H1 H2 H3 H4 H5)))))).
Defined.

(** C1, as the code has it: for a thing name of length between 1 and 128
    that holds no forward slash and each of the 6 valid APIs, the topic that
    [Defender_GetTopic] writes into a buffer with room for it is matched by
    [Defender_MatchTopic] with [DefenderSuccess], that API and, in the
    slots the caller passed, the thing name address 12 bytes into the topic
    and the thing name length; the bytes at that address are the thing
    name. *)
Theorem C1_roundtrip_slash_free obj ofs (bufferLength : Z) (pThingName : ptr)
    (thingNameLength : Z) (id : list ascii) (api a : DefenderTopic_t)
    (l0 : Z) (ppOutThingName : option ptr) (pOutThingNameLength : option Z) :
  in_bounds obj ofs bufferLength = true ->
  load_bytes pThingName thingNameLength = Some id ->
  1 <= thingNameLength <= DEFENDER_THINGNAME_MAX_LENGTH ->
  slash_free id = true ->
  valid_api api = true ->
  requiredLength thingNameLength api <= bufferLength ->
  exists obj' topicLength,
    Defender_GetTopic (Ptr obj ofs) bufferLength pThingName thingNameLength api (Some l0)
    = Some (DefenderSuccess, Ptr obj' ofs, Some topicLength)
    /\ Defender_MatchTopic (Ptr obj' ofs) topicLength (Some a)
         ppOutThingName pOutThingNameLength
       = Some (DefenderSuccess,
               mkMatchOutputs (Some api)
                 (option_map (fun _ => Ptr obj' (ofs + 12)) ppOutThingName)
                 (option_map (fun _ => thingNameLength) pOutThingNameLength))
    /\ load_bytes (Ptr obj' (ofs + 12)) thingNameLength = Some id.
Proof.
  intros Hb Hid Hn Hsf Hv Hreq.
  pose proof (load_bytes_length _ _ _ Hid) as Hidl.
  destruct (Defender_GetTopic_writes _ _ _ _ _ id _ l0 Hb Hid Hn Hv Hreq)
    as (pre & old & post & Hobj & Hofs & Hold & Hcall).
  exists (pre ++ topic_of id api ++ post), (requiredLength thingNameLength api).
  split; [exact Hcall|].
  assert (Hlen : requiredLength thingNameLength api
                 = Z.of_nat (length (topic_of id api)))
    by now apply requiredLength_topic_of.
  assert (Hload : load_bytes (Ptr (pre ++ topic_of id api ++ post) ofs)
                    (requiredLength thingNameLength api)
                  = Some (topic_of id api))
    by now apply load_bytes_at with (pre := pre) (post := post).
  clear Hcall. subst thingNameLength. split.
  - apply (Defender_MatchTopic_topic_of _ ofs _ id api a
             ppOutThingName pOutThingNameLength); trivial.
    + rewrite Hlen. unfold topic_of. rewrite !length_app.
      assert (length (bytes (apiTopic api)) <= 13)%nat
        by (destruct api; try discriminate; simpl; lia).
      change (length (bytes DEFENDER_API_PREFIX)) with 12%nat.
      change (length (bytes DEFENDER_API_BRIDGE)) with 18%nat.
      unfold UINT16_MAX, DEFENDER_THINGNAME_MAX_LENGTH in *. lia.
    + intros ->. simpl in Hn. lia.
  - apply load_bytes_at
      with (pre := pre ++ bytes DEFENDER_API_PREFIX)
           (post := bytes DEFENDER_API_BRIDGE ++ bytes (apiTopic api) ++ post).
    + unfold topic_of. now rewrite <- !app_assoc.
    + rewrite length_app. change (length (bytes DEFENDER_API_PREFIX)) with 12%nat. lia.
    + reflexivity.
Qed.

Lemma C1_witness :
  in_bounds example_buffer 0 64 = true
  /\ load_bytes (Ptr example_thing 0) 7 = Some example_thing
  /\ 1 <= 7 <= DEFENDER_THINGNAME_MAX_LENGTH
  /\ slash_free example_thing = true
  /\ valid_api DefenderJsonReportAccepted = true
  /\ requiredLength 7 DefenderJsonReportAccepted <= 64
  /\ exists obj' topicLength,
       Defender_GetTopic (Ptr example_buffer 0) 64 (Ptr example_thing 0) 7
         DefenderJsonReportAccepted (Some 0)
       = Some (DefenderSuccess, Ptr obj' 0, Some topicLength)
       /\ Defender_MatchTopic (Ptr obj' 0) topicLength
            (Some DefenderInvalidTopic) (Some NULL) (Some 0)
          = Some (DefenderSuccess,
                  mkMatchOutputs (Some DefenderJsonReportAccepted)
                    (option_map (fun _ => Ptr obj' (0 + 12)) (Some NULL))
                    (option_map (fun _ => 7) (Some 0)))
       /\ load_bytes (Ptr obj' (0 + 12)) 7 = Some example_thing.
Proof.
  assert (H1 : in_bounds example_buffer 0 64 = true) by reflexivity.
  assert (H2 : load_bytes (Ptr example_thing 0) 7 = Some example_thing) by reflexivity.
  assert (H3 : 1 <= 7 <= DEFENDER_THINGNAME_MAX_LENGTH)
    by (unfold DEFENDER_THINGNAME_MAX_LENGTH; lia).
  assert (H4 : slash_free example_thing = true) by reflexivity.
  assert (H5 : valid_api DefenderJsonReportAccepted = true) by reflexivity.
  assert (H6 : requiredLength 7 DefenderJsonReportAccepted <= 64)
    by (vm_compute; discriminate).
  exact (conj H1 (conj H2 (conj H3 (conj H4 (conj H5 (conj H6
    (C1_roundtrip_slash_free example_buffer 0 64 (Ptr example_thing 0) 7
       example_thing DefenderJsonReportAccepted DefenderInvalidTopic
       0 (Some NULL) (Some 0) H1 H2 H3 H4 H5 H6))))))).
Defined.

(** C1 as stated fails: the thing name [a/b] has length 3 and
    [Defender_GetTopic] writes its topic for [DefenderJsonReportPublish],
    but [Defender_MatchTopic] returns [DefenderNoMatch] on that topic. *)
Lemma C1_counterexample :
  exists obj' topicLength,
    Defender_GetTopic (Ptr example_buffer 0) 64 (Ptr (bytes "a/b") 0) 3
      DefenderJsonReportPublish (Some 0)
    = Some (DefenderSuccess, Ptr obj' 0, Some topicLength)
    /\ Defender_MatchTopic (Ptr obj' 0) topicLength
         (Some DefenderJsonReportPublish) (Some NULL) (Some 0)
       = Some (DefenderNoMatch,
               mkMatchOutputs (Some DefenderInvalidTopic) (Some NULL) (Some 0)).
Proof. do 2 eexists. split; reflexivity. Qed.

(** C4, as the code has it: with the thing name [MyThing] and
    [DefenderJsonReportPublish], [Defender_GetTopic] writes exactly
    [$aws/things/MyThing/defender/metrics/json] and the written length is
    41; [Defender_MatchTopic] on that string returns
    [DefenderJsonReportPublish] and, in the slots the caller passed, the
    thing name address 12 bytes into the topic and the thing name length
    7. *)
Theorem C4_MyThing_example obj ofs (bufferLength : Z) (pThingName : ptr)
    (a : DefenderTopic_t) (l0 : Z)
    (ppOutThingName : option ptr) (pOutThingNameLength : option Z) :
  in_bounds obj ofs bufferLength = true ->
  41 <= bufferLength ->
  load_bytes pThingName 7 = Some (bytes "MyThing") ->
  exists obj',
    Defender_GetTopic (Ptr obj ofs) bufferLength pThingName 7
      DefenderJsonReportPublish (Some l0)
    = Some (DefenderSuccess, Ptr obj' ofs, Some 41)
    /\ load_bytes (Ptr obj' ofs) 41
       = Some (bytes "$aws/things/MyThing/defender/metrics/json")
    /\ Defender_MatchTopic (Ptr obj' ofs) 41 (Some a)
         ppOutThingName pOutThingNameLength
       = Some (DefenderSuccess,
               mkMatchOutputs (Some DefenderJsonReportPublish)
                 (option_map (fun _ => Ptr obj' (ofs + 12)) ppOutThingName)
                 (option_map (fun _ => 7) pOutThingNameLength)).
Proof.
  intros Hb Hlen Hid.
  assert (Hn : 1 <= 7 <= DEFENDER_THINGNAME_MAX_LENGTH)
    by (unfold DEFENDER_THINGNAME_MAX_LENGTH; lia).
  destruct (Defender_GetTopic_writes _ _ _ _ _ _ DefenderJsonReportPublish l0
              Hb Hid Hn eq_refl Hlen)
    as (pre & old & post & Hobj & Hofs & Hold & Hcall).
  exists (pre ++ topic_of (bytes "MyThing") DefenderJsonReportPublish ++ post).
  assert (Hload : load_bytes
                    (Ptr (pre ++ topic_of (bytes "MyThing") DefenderJsonReportPublish
                          ++ post) ofs) 41
                  = Some (topic_of (bytes "MyThing") DefenderJsonReportPublish))
    by now apply load_bytes_at with (pre := pre) (post := post).
  split; [exact Hcall|]. split; [exact Hload|].
  apply (Defender_MatchTopic_topic_of _ ofs 41 (bytes "MyThing")
           DefenderJsonReportPublish a ppOutThingName pOutThingNameLength Hload);
    [unfold UINT16_MAX; lia | discriminate | reflexivity | reflexivity].
Qed.

Lemma C4_witness :
  in_bounds example_buffer 0 64 = true
  /\ 41 <= 64
  /\ load_bytes (Ptr example_thing 0) 7 = Some (bytes "MyThing")
  /\ exists obj',
       Defender_GetTopic (Ptr example_buffer 0) 64 (Ptr example_thing 0) 7
         DefenderJsonReportPublish (Some 0)
       = Some (DefenderSuccess, Ptr obj' 0, Some 41)
       /\ load_bytes (Ptr obj' 0) 41
          = Some (bytes "$aws/things/MyThing/defender/metrics/json")
       /\ Defender_MatchTopic (Ptr obj' 0) 41
            (Some DefenderInvalidTopic) (Some NULL) (Some 0)
          = Some (DefenderSuccess,
                  mkMatchOutputs (Some DefenderJsonReportPublish)
                    (option_map (fun _ => Ptr obj' (0 + 12)) (Some NULL))
                    (option_map (fun _ => 7) (Some 0))).
Proof.
  assert (H1 : in_bounds example_buffer 0 64 = true) by reflexivity.
  assert (H2 : 41 <= 64) by lia.
  assert (H3 : load_bytes (Ptr example_thing 0) 7 = Some (bytes "MyThing"))
    by reflexivity.
  exact (conj H1 (conj H2 (conj H3
    (C4_MyThing_example example_buffer 0 64 (Ptr example_thing 0)
       DefenderInvalidTopic 0 (Some NULL) (Some 0) H1 H2 H3)))).
Defined.

(** C4 as stated fails: the written length is 41, not 42. *)
Lemma C4_counterexample :
  exists obj',
    Defender_GetTopic (Ptr example_buffer 0) 64 (Ptr example_thing 0) 7
      DefenderJsonReportPublish (Some 0)
    = Some (DefenderSuccess, Ptr obj' 0, Some 41)
    /\ load_bytes (Ptr obj' 0) 41
       = Some (bytes "$aws/things/MyThing/defender/metrics/json")
    /\ 41 <> 42.
Proof. eexists. repeat split. discriminate. Qed.

(** * Further properties of the code *)

Section Further.

Implicit Types (obj pre post bs id : list ascii) (ofs n : Z).

Lemma bytes_append (s1 s2 : string) : bytes (s1 ++ s2) = bytes s1 ++ bytes s2.
Proof. unfold bytes. induction s1 as [|c s1 IH]; simpl; [reflexivity | now rewrite IH]. Qed.

Lemma Defender_GetTopic_guard (pBuffer : ptr) (bufferLength : Z)
    (pThingName : ptr) (thingNameLength : Z) (api : DefenderTopic_t)
    (pOutLength : option Z) :
  is_null pBuffer || is_null pThingName
  || (thingNameLength =? 0) || (DEFENDER_THINGNAME_MAX_LENGTH <? thingNameLength)
  || (topic_value api <=? topic_value DefenderInvalidTopic)
  || (topic_value DefenderMaxTopic <=? topic_value api)
  || slot_is_null pOutLength = true ->
  Defender_GetTopic pBuffer bufferLength pThingName thingNameLength api pOutLength
  = Some (DefenderBadParameter, pBuffer, pOutLength).
Proof. intros H. unfold Defender_GetTopic. rewrite H. reflexivity. Qed.


Lemma valid_api_true (api : DefenderTopic_t) :
  (topic_value api <=? topic_value DefenderInvalidTopic) = false ->
  (topic_value DefenderMaxTopic <=? topic_value api) = false ->
  valid_api api = true.
Proof. destruct api; simpl; intros H1 H2; try discriminate; reflexivity. Qed.

Lemma in_bounds_load obj ofs n :
  in_bounds obj ofs n = true ->
  exists bs, load_bytes (Ptr obj ofs) n = Some bs.
Proof. intros H. unfold load_bytes. rewrite H. eexists. reflexivity. Qed.

Lemma Defender_MatchTopic_guard (pTopic : ptr) (topicLength : Z)
    (pOutApi : option DefenderTopic_t) (nm : option ptr) (ln : option Z) :
  is_null pTopic || slot_is_null pOutApi = true ->
  Defender_MatchTopic pTopic topicLength pOutApi nm ln
  = Some (DefenderBadParameter, mkMatchOutputs pOutApi nm ln).
Proof. intros H. unfold Defender_MatchTopic. rewrite H. reflexivity. Qed.

(** What a successful match says about the topic and the outputs. *)
Lemma Defender_MatchTopic_success_inv obj ofs (topicLength : Z) bs
    (a : DefenderTopic_t) (nm : option ptr) (ln : option Z) (out : MatchOutputs) :
  load_bytes (Ptr obj ofs) topicLength = Some bs ->
  topicLength <= UINT16_MAX ->
  Defender_MatchTopic (Ptr obj ofs) topicLength (Some a) nm ln
  = Some (DefenderSuccess, out) ->
  exists id api,
    bs = topic_of id api /\ id <> [] /\ slash_free id = true
    /\ valid_api api = true
    /\ out = mkMatchOutputs (Some api)
               (option_map (fun _ => Ptr obj (ofs + DEFENDER_API_PREFIX_LENGTH)) nm)
               (option_map (fun _ => Z.of_nat (length id)) ln).
Proof.
  intros H Hsz Hcall.
  pose proof Hcall as Hcall'.
  rewrite (Defender_MatchTopic_parse _ _ _ a nm ln H Hsz) in Hcall'.
  destruct (parse_topic bs) as [[api k]|] eqn:Hp; [|discriminate].
  apply parse_topic_inv in Hp.
  destruct Hp as (id & -> & Hk & Hne & Hsf & Hv).
  exists id, api. repeat split; trivial.
  rewrite (Defender_MatchTopic_topic_of _ _ _ _ _ a nm ln H Hsz Hne Hsf Hv) in Hcall.
  now injection Hcall as <-.
Qed.

(** The bytes at the thing name of a topic. *)
Lemma load_bytes_thing_name obj ofs (topicLength : Z) id (api : DefenderTopic_t) :
  load_bytes (Ptr obj ofs) topicLength = Some (topic_of id api) ->
  load_bytes (Ptr obj (ofs + DEFENDER_API_PREFIX_LENGTH)) (Z.of_nat (length id))
  = Some id.
Proof.
  intros H. apply load_bytes_inv in H.
  destruct H as (obj' & pre & post & [= <- ->] & Hobj & _).
  apply load_bytes_at
    with (pre := pre ++ bytes DEFENDER_API_PREFIX)
         (post := bytes DEFENDER_API_BRIDGE ++ bytes (apiTopic api) ++ post).
  - rewrite Hobj. unfold topic_of. now rewrite <- !app_assoc.
  - rewrite length_app. change DEFENDER_API_PREFIX_LENGTH with 12.
    change (length (bytes DEFENDER_API_PREFIX)) with 12%nat. lia.
  - reflexivity.
Qed.

Lemma apiTopicLength_bytes (api : DefenderTopic_t) :
  valid_api api = true ->
  apiTopicLength api = Z.of_nat (length (bytes (apiTopic api))).
Proof. destruct api; try discriminate; reflexivity. Qed.

Lemma apiMacro_topic_of (api : DefenderTopic_t) (thingName : string) :
  valid_api api = true ->
  bytes (apiMacro api thingName) = topic_of (bytes thingName) api.
Proof.
  intros Hv. unfold topic_of.
  destruct api; try discriminate;
    unfold apiMacro, DEFENDER_API_JSON_REPORT_PUBLISH,
      DEFENDER_API_JSON_REPORT_ACCEPTED, DEFENDER_API_JSON_REPORT_REJECTED,
      DEFENDER_API_CBOR_REPORT_PUBLISH, DEFENDER_API_CBOR_REPORT_ACCEPTED,
      DEFENDER_API_CBOR_REPORT_REJECTED, DEFENDER_API_COMMON;
    rewrite !bytes_append; reflexivity.
Qed.

(** Replacing the middle of an object leaves its size, the bytes before
    and the bytes after as they were. *)
Lemma frame_of_middle pre old new post (ofs len : Z) :
  length new = length old ->
  ofs = Z.of_nat (length pre) ->
  len = Z.of_nat (length new) ->
  length (pre ++ new ++ post) = length (pre ++ old ++ post)
  /\ firstn (Z.to_nat ofs) (pre ++ new ++ post)
     = firstn (Z.to_nat ofs) (pre ++ old ++ post)
  /\ skipn (Z.to_nat (ofs + len)) (pre ++ new ++ post)
     = skipn (Z.to_nat (ofs + len)) (pre ++ old ++ post).
Proof.
  intros Hl -> ->. split; [|split].
  - rewrite !length_app. lia.
  - rewrite Nat2Z.id, !firstn_app, !firstn_all, Nat.sub_diag. reflexivity.
  - rewrite <- Nat2Z.inj_add, Nat2Z.id.
    rewrite !(app_assoc pre).
    replace (length pre + length new)%nat with (length (pre ++ new))
      by now rewrite length_app.
    rewrite skipn_app_length.
    replace (length (pre ++ new)) with (length (pre ++ old))
      by (rewrite !length_app; lia).
    now rewrite skipn_app_length.
Qed.

Lemma requiredLength_apiTopicLength (thingNameLength : Z) (api : DefenderTopic_t) :
  valid_api api = true ->
  requiredLength thingNameLength api
  = DEFENDER_API_PREFIX_LENGTH + thingNameLength + DEFENDER_API_BRIDGE_LENGTH
    + apiTopicLength api.
Proof.
  intros Hv. unfold requiredLength, DEFENDER_API_COMMON_LENGTH.
  rewrite (apiTopicLength_bytes _ Hv), (apiTopic_format_suffix _ Hv), length_app.
  rewrite !STRING_LITERAL_LENGTH_bytes. lia.
Qed.

Lemma apiTopicLength_range (api : DefenderTopic_t) :
  valid_api api = true -> 4 <= apiTopicLength api <= 13.
Proof. destruct api; try discriminate; intros _; vm_compute; split; discriminate. Qed.

End Further.



(** X2: a successful [Defender_GetTopic] changes only the
    [requiredLength] bytes at [pBuffer]: the object keeps its size, and the
    bytes before [pBuffer] and those from [requiredLength] on are as they
    were. *)
Theorem X2_GetTopic_frame obj ofs (bufferLength : Z) (pThingName : ptr)
    (thingNameLength : Z) (id : list ascii) (api : DefenderTopic_t) (l0 : Z) :
  in_bounds obj ofs bufferLength = true ->
  load_bytes pThingName thingNameLength = Some id ->
  1 <= thingNameLength <= DEFENDER_THINGNAME_MAX_LENGTH ->
  valid_api api = true ->
  requiredLength thingNameLength api <= bufferLength ->
  exists obj',
    Defender_GetTopic (Ptr obj ofs) bufferLength pThingName thingNameLength api (Some l0)
    = Some (DefenderSuccess, Ptr obj' ofs, Some (requiredLength thingNameLength api))
    /\ length obj' = length obj
    /\ firstn (Z.to_nat ofs) obj' = firstn (Z.to_nat ofs) obj
    /\ skipn (Z.to_nat (ofs + requiredLength thingNameLength api)) obj'
       = skipn (Z.to_nat (ofs + requiredLength thingNameLength api)) obj.
Proof.
  intros Hb Hid Hn Hv Hreq.
  destruct (Defender_GetTopic_writes _ _ _ _ _ id _ l0 Hb Hid Hn Hv Hreq)
    as (pre & old & post & -> & Hofs & Hold & Hcall).
  eexists. split; [exact Hcall|].
  apply frame_of_middle; [now symmetry | exact Hofs |].
  apply requiredLength_topic_of; trivial. now apply load_bytes_length in Hid.
Qed.

Lemma X2_witness :
  in_bounds example_buffer 3 50 = true
  /\ load_bytes (Ptr example_thing 0) 7 = Some example_thing
  /\ 1 <= 7 <= DEFENDER_THINGNAME_MAX_LENGTH
  /\ valid_api DefenderJsonReportPublish = true
  /\ requiredLength 7 DefenderJsonReportPublish <= 50
  /\ exists obj',
       Defender_GetTopic (Ptr example_buffer 3) 50 (Ptr example_thing 0) 7
         DefenderJsonReportPublish (Some 0)
       = Some (DefenderSuccess, Ptr obj' 3,
               Some (requiredLength 7 DefenderJsonReportPublish))
       /\ length obj' = length example_buffer
       /\ firstn (Z.to_nat 3) obj' = firstn (Z.to_nat 3) example_buffer
       /\ skipn (Z.to_nat (3 + requiredLength 7 DefenderJsonReportPublish)) obj'
          = skipn (Z.to_nat (3 + requiredLength 7 DefenderJsonReportPublish))
              example_buffer.
Proof.
  assert (H1 : in_bounds example_buffer 3 50 = true) by reflexivity.
  assert (H2 : load_bytes (Ptr example_thing 0) 7 = Some example_thing) by reflexivity.
  assert (H3 : 1 <= 7 <= DEFENDER_THINGNAME_MAX_LENGTH)
    by (unfold DEFENDER_THINGNAME_MAX_LENGTH; lia).
  assert (H4 : valid_api DefenderJsonReportPublish = true) by reflexivity.
  assert (H5 : requiredLength 7 DefenderJsonReportPublish <= 50)
    by (vm_compute; discriminate).
  exact (conj H1 (conj H2 (conj H3 (conj H4 (conj H5
    (X2_GetTopic_frame example_buffer 3 50 (Ptr example_thing 0) 7 example_thing
       DefenderJsonReportPublish 0 H1 H2 H3 H4 H5)))))).
Defined.



(** X4: a buffer of [DEFENDER_API_MAX_LENGTH( thingNameLength )] bytes
    is large enough for the topic of every API: the required length never
    exceeds it and [Defender_GetTopic] returns [DefenderSuccess]. *)
Theorem X4_GetTopic_max_length_suffices obj ofs (pThingName : ptr)
    (thingNameLength : Z) (id : list ascii) (api : DefenderTopic_t) (l0 : Z) :
  in_bounds obj ofs (DEFENDER_API_MAX_LENGTH thingNameLength) = true ->
  load_bytes pThingName thingNameLength = Some id ->
  1 <= thingNameLength <= DEFENDER_THINGNAME_MAX_LENGTH ->
  valid_api api = true ->
  requiredLength thingNameLength api <= DEFENDER_API_MAX_LENGTH thingNameLength
  /\ exists obj',
       Defender_GetTopic (Ptr obj ofs) (DEFENDER_API_MAX_LENGTH thingNameLength)
         pThingName thingNameLength api (Some l0)
       = Some (DefenderSuccess, Ptr obj' ofs,
               Some (requiredLength thingNameLength api)).
Proof.
  intros Hb Hid Hn Hv.
  assert (Hle : requiredLength thingNameLength api
                <= DEFENDER_API_MAX_LENGTH thingNameLength).
  { rewrite (requiredLength_apiTopicLength _ _ Hv).
    pose proof (apiTopicLength_range _ Hv).
    unfold DEFENDER_API_MAX_LENGTH, DEFENDER_API_CBOR_REPORT_ACCEPTED_LENGTH,
      DEFENDER_API_COMMON_LENGTH.
    change DEFENDER_API_CBOR_REPORT_FORMAT_LENGTH with 4.
    change DEFENDER_API_ACCEPTED_SUFFIX_LENGTH with 9. lia. }
  split; [exact Hle|].
  destruct (Defender_GetTopic_writes _ _ _ _ _ id _ l0 Hb Hid Hn Hv Hle)
    as (pre & old & post & _ & _ & _ & Hcall).
  eexists. exact Hcall.
Qed.

Lemma X4_witness :
  in_bounds example_buffer 0 (DEFENDER_API_MAX_LENGTH 7) = true
  /\ load_bytes (Ptr example_thing 0) 7 = Some example_thing
  /\ 1 <= 7 <= DEFENDER_THINGNAME_MAX_LENGTH
  /\ valid_api DefenderJsonReportRejected = true
  /\ requiredLength 7 DefenderJsonReportRejected <= DEFENDER_API_MAX_LENGTH 7
  /\ exists obj',
       Defender_GetTopic (Ptr example_buffer 0) (DEFENDER_API_MAX_LENGTH 7)
         (Ptr example_thing 0) 7 DefenderJsonReportRejected (Some 0)
       = Some (DefenderSuccess, Ptr obj' 0,
               Some (requiredLength 7 DefenderJsonReportRejected)).
Proof.
  assert (H1 : in_bounds example_buffer 0 (DEFENDER_API_MAX_LENGTH 7) = true)
    by reflexivity.
  assert (H2 : load_bytes (Ptr example_thing 0) 7 = Some example_thing) by reflexivity.
  assert (H3 : 1 <= 7 <= DEFENDER_THINGNAME_MAX_LENGTH)
    by (unfold DEFENDER_THINGNAME_MAX_LENGTH; lia).
  assert (H4 : valid_api DefenderJsonReportRejected = true) by reflexivity.
  exact (conj H1 (conj H2 (conj H3 (conj H4
    (X4_GetTopic_max_length_suffices example_buffer 0 (Ptr example_thing 0) 7
       example_thing DefenderJsonReportRejected 0 H1 H2 H3 H4))))).
Defined.

(** X5: the length macros of defender.h agree with the topic string
    macros: for every thing name literal, the length of
    [DEFENDER_API_x( thingName )] is [DEFENDER_API_x_LENGTH] of the length
    of the thing name, for each of the six APIs. *)
Theorem X5_length_macros_agree (thingName : string) :
  STRING_LITERAL_LENGTH (DEFENDER_API_JSON_REPORT_PUBLISH thingName)
  = DEFENDER_API_JSON_REPORT_PUBLISH_LENGTH (STRING_LITERAL_LENGTH thingName)
  /\ STRING_LITERAL_LENGTH (DEFENDER_API_JSON_REPORT_ACCEPTED thingName)
     = DEFENDER_API_JSON_REPORT_ACCEPTED_LENGTH (STRING_LITERAL_LENGTH thingName)
  /\ STRING_LITERAL_LENGTH (DEFENDER_API_JSON_REPORT_REJECTED thingName)
     = DEFENDER_API_JSON_REPORT_REJECTED_LENGTH (STRING_LITERAL_LENGTH thingName)
  /\ STRING_LITERAL_LENGTH (DEFENDER_API_CBOR_REPORT_PUBLISH thingName)
     = DEFENDER_API_CBOR_REPORT_PUBLISH_LENGTH (STRING_LITERAL_LENGTH thingName)
  /\ STRING_LITERAL_LENGTH (DEFENDER_API_CBOR_REPORT_ACCEPTED thingName)
     = DEFENDER_API_CBOR_REPORT_ACCEPTED_LENGTH (STRING_LITERAL_LENGTH thingName)
  /\ STRING_LITERAL_LENGTH (DEFENDER_API_CBOR_REPORT_REJECTED thingName)
     = DEFENDER_API_CBOR_REPORT_REJECTED_LENGTH (STRING_LITERAL_LENGTH thingName).
Proof.
  unfold DEFENDER_API_JSON_REPORT_PUBLISH, DEFENDER_API_JSON_REPORT_ACCEPTED,
    DEFENDER_API_JSON_REPORT_REJECTED, DEFENDER_API_CBOR_REPORT_PUBLISH,
    DEFENDER_API_CBOR_REPORT_ACCEPTED, DEFENDER_API_CBOR_REPORT_REJECTED,
    DEFENDER_API_COMMON,
    DEFENDER_API_JSON_REPORT_PUBLISH_LENGTH, DEFENDER_API_JSON_REPORT_ACCEPTED_LENGTH,
    DEFENDER_API_JSON_REPORT_REJECTED_LENGTH, DEFENDER_API_CBOR_REPORT_PUBLISH_LENGTH,
    DEFENDER_API_CBOR_REPORT_ACCEPTED_LENGTH, DEFENDER_API_CBOR_REPORT_REJECTED_LENGTH,
    DEFENDER_API_COMMON_LENGTH.
  rewrite !STRING_LITERAL_LENGTH_bytes, !bytes_append, !length_app.
  change DEFENDER_API_PREFIX_LENGTH with 12.
  change DEFENDER_API_BRIDGE_LENGTH with 18.
  change DEFENDER_API_JSON_REPORT_FORMAT_LENGTH with 4.
  change DEFENDER_API_CBOR_REPORT_FORMAT_LENGTH with 4.
  change DEFENDER_API_ACCEPTED_SUFFIX_LENGTH with 9.
  change DEFENDER_API_REJECTED_SUFFIX_LENGTH with 9.
  change DEFENDER_API_NULL_SUFFIX_LENGTH with 0.
  change (length (bytes DEFENDER_API_PREFIX)) with 12%nat.
  change (length (bytes DEFENDER_API_BRIDGE)) with 18%nat.
  change (length (bytes DEFENDER_API_JSON_REPORT_FORMAT)) with 4%nat.
  change (length (bytes DEFENDER_API_CBOR_REPORT_FORMAT)) with 4%nat.
  change (length (bytes DEFENDER_API_ACCEPTED_SUFFIX)) with 9%nat.
  change (length (bytes DEFENDER_API_REJECTED_SUFFIX)) with 9%nat.
  change (length (bytes DEFENDER_API_NULL_SUFFIX)) with 0%nat.
  repeat split; lia.
Qed.

(** X6: the builder agrees with the topic string macros: for a thing
    name literal of length in [1,128] and a valid API, [Defender_GetTopic]
    writes exactly the characters of [DEFENDER_API_x( thingName )] and
    returns their number in [*pOutLength]. *)
Theorem X6_GetTopic_writes_macro_string obj ofs (bufferLength : Z)
    (thingName : string) (api : DefenderTopic_t) (l0 : Z) :
  in_bounds obj ofs bufferLength = true ->
  1 <= STRING_LITERAL_LENGTH thingName <= DEFENDER_THINGNAME_MAX_LENGTH ->
  valid_api api = true ->
  STRING_LITERAL_LENGTH (apiMacro api thingName) <= bufferLength ->
  exists obj',
    Defender_GetTopic (Ptr obj ofs) bufferLength
      (literal thingName) (STRING_LITERAL_LENGTH thingName) api (Some l0)
    = Some (DefenderSuccess, Ptr obj' ofs,
            Some (STRING_LITERAL_LENGTH (apiMacro api thingName)))
    /\ load_bytes (Ptr obj' ofs) (STRING_LITERAL_LENGTH (apiMacro api thingName))
       = Some (bytes (apiMacro api thingName)).
Proof.
  intros Hb Hn Hv Hlen.
  pose proof (load_literal thingName) as Hid.
  assert (Hreq : requiredLength (STRING_LITERAL_LENGTH thingName) api
                 = STRING_LITERAL_LENGTH (apiMacro api thingName)).
  { rewrite (requiredLength_topic_of _ (bytes thingName) _ Hv
               (STRING_LITERAL_LENGTH_bytes thingName)).
    now rewrite STRING_LITERAL_LENGTH_bytes, (apiMacro_topic_of _ _ Hv). }
  rewrite <- Hreq in *.
  destruct (Defender_GetTopic_writes _ _ _ _ _ _ _ l0 Hb Hid Hn Hv Hlen)
    as (pre & old & post & Hobj & Hofs & Hold & Hcall).
  eexists. split; [exact Hcall|].
  rewrite (apiMacro_topic_of _ _ Hv).
  apply load_bytes_at with (pre := pre) (post := post); trivial.
  apply requiredLength_topic_of; trivial. apply STRING_LITERAL_LENGTH_bytes.
Qed.

Lemma X6_witness :
  in_bounds example_buffer 0 64 = true
  /\ 1 <= STRING_LITERAL_LENGTH "MyThing" <= DEFENDER_THINGNAME_MAX_LENGTH
  /\ valid_api DefenderCborReportPublish = true
  /\ STRING_LITERAL_LENGTH (apiMacro DefenderCborReportPublish "MyThing") <= 64
  /\ exists obj',
       Defender_GetTopic (Ptr example_buffer 0) 64
         (literal "MyThing") (STRING_LITERAL_LENGTH "MyThing")
         DefenderCborReportPublish (Some 0)
       = Some (DefenderSuccess, Ptr obj' 0,
               Some (STRING_LITERAL_LENGTH
                       (apiMacro DefenderCborReportPublish "MyThing")))
       /\ load_bytes (Ptr obj' 0)
            (STRING_LITERAL_LENGTH (apiMacro DefenderCborReportPublish "MyThing"))
          = Some (bytes (apiMacro DefenderCborReportPublish "MyThing")).
Proof.
  assert (H1 : in_bounds example_buffer 0 64 = true) by reflexivity.
  assert (H2 : 1 <= STRING_LITERAL_LENGTH "MyThing" <= DEFENDER_THINGNAME_MAX_LENGTH)
    by (vm_compute; split; discriminate).
  assert (H3 : valid_api DefenderCborReportPublish = true) by reflexivity.
  assert (H4 : STRING_LITERAL_LENGTH (apiMacro DefenderCborReportPublish "MyThing")
               <= 64)
    by (vm_compute; discriminate).
  exact (conj H1 (conj H2 (conj H3 (conj H4
    (X6_GetTopic_writes_macro_string example_buffer 0 64 "MyThing"
       DefenderCborReportPublish 0 H1 H2 H3 H4))))).
Defined.

(** X7: for a valid API, [writeFormatAndSuffix] writes at [pBuffer] the
    string that [defenderApiTopic] lists for that API, of the length that
    [defenderApiTopicLength] lists, and nothing else: the builder's
    [switch] and the matcher's tables agree. *)
Theorem X7_writeFormatAndSuffix_writes_table_entry obj ofs (api : DefenderTopic_t) :
  valid_api api = true ->
  in_bounds obj ofs (apiTopicLength api) = true ->
  exists obj',
    writeFormatAndSuffix (Ptr obj ofs) api = Some obj'
    /\ load_bytes (Ptr obj' ofs) (apiTopicLength api) = Some (bytes (apiTopic api))
    /\ length obj' = length obj
    /\ firstn (Z.to_nat ofs) obj' = firstn (Z.to_nat ofs) obj
    /\ skipn (Z.to_nat (ofs + apiTopicLength api)) obj'
       = skipn (Z.to_nat (ofs + apiTopicLength api)) obj.
Proof.
  intros Hv Hb. rewrite (apiTopicLength_bytes _ Hv) in *.
  apply in_bounds_iff in Hb. destruct Hb as (Hofs & _ & Hle).
  destruct (list_split_at obj (Z.to_nat ofs)) as (pre & rest & -> & Hpre); [lia|].
  rewrite length_app in Hle.
  destruct (list_split_at rest (length (bytes (apiTopic api))))
    as (old & post & -> & Hold); [lia|].
  replace ofs with (Z.of_nat (length pre)) by lia.
  exists (pre ++ bytes (apiTopic api) ++ post). split; [|split].
  - now apply writeFormatAndSuffix_at.
  - now apply load_bytes_at with (pre := pre) (post := post).
  - apply frame_of_middle; trivial. now symmetry.
Qed.

Lemma X7_witness :
  valid_api DefenderJsonReportAccepted = true
  /\ in_bounds example_buffer 5 (apiTopicLength DefenderJsonReportAccepted) = true
  /\ exists obj',
       writeFormatAndSuffix (Ptr example_buffer 5) DefenderJsonReportAccepted
       = Some obj'
       /\ load_bytes (Ptr obj' 5) (apiTopicLength DefenderJsonReportAccepted)
          = Some (bytes (apiTopic DefenderJsonReportAccepted))
       /\ length obj' = length example_buffer
       /\ firstn (Z.to_nat 5) obj' = firstn (Z.to_nat 5) example_buffer
       /\ skipn (Z.to_nat (5 + apiTopicLength DefenderJsonReportAccepted)) obj'
          = skipn (Z.to_nat (5 + apiTopicLength DefenderJsonReportAccepted))
              example_buffer.
Proof.
  assert (H1 : valid_api DefenderJsonReportAccepted = true) by reflexivity.
  assert (H2 : in_bounds example_buffer 5
                 (apiTopicLength DefenderJsonReportAccepted) = true) by reflexivity.
  exact (conj H1 (conj H2
    (X7_writeFormatAndSuffix_writes_table_entry example_buffer 5
       DefenderJsonReportAccepted H1 H2))).
Defined.



(** X9: a match is sound: when [Defender_MatchTopic] returns
    [DefenderSuccess] on the [topicLength] bytes at [pTopic], those bytes
    are the prefix, a thing name that is not empty and holds no forward
    slash, the bridge and the string of a valid API; [*pOutApi] is that API
    and the thing name outputs, where asked for, are the address 12 bytes
    into the topic and the length of that thing name, so that they
    designate exactly the thing name bytes. *)
Theorem X9_MatchTopic_success_sound obj ofs (topicLength : Z) (bs : list ascii)
    (a : DefenderTopic_t) (ppOutThingName : option ptr)
    (pOutThingNameLength : option Z) (out : MatchOutputs) :
  load_bytes (Ptr obj ofs) topicLength = Some bs ->
  topicLength <= UINT16_MAX ->
  Defender_MatchTopic (Ptr obj ofs) topicLength (Some a)
    ppOutThingName pOutThingNameLength
  = Some (DefenderSuccess, out) ->
  exists id api,
    valid_api api = true /\ id <> [] /\ slash_free id = true
    /\ bs = bytes DEFENDER_API_PREFIX ++ id ++ bytes DEFENDER_API_BRIDGE
            ++ bytes (apiTopic api)
    /\ out = mkMatchOutputs (Some api)
               (option_map (fun _ => Ptr obj (ofs + 12)) ppOutThingName)
               (option_map (fun _ => Z.of_nat (length id)) pOutThingNameLength)
    /\ load_bytes (Ptr obj (ofs + 12)) (Z.of_nat (length id)) = Some id.
Proof.
  intros H Hsz Hcall.
  destruct (Defender_MatchTopic_success_inv _ _ _ _ _ _ _ _ H Hsz Hcall)
    as (id & api & -> & Hne & Hsf & Hv & ->).
  exists id, api. repeat split; trivial.
  apply (load_bytes_thing_name _ _ _ _ _ H).
Qed.

Lemma X9_witness :
  load_bytes (Ptr (bytes "$aws/things/MyThing/defender/metrics/cbor") 0) 41
  = Some (bytes "$aws/things/MyThing/defender/metrics/cbor")
  /\ 41 <= UINT16_MAX
  /\ Defender_MatchTopic (Ptr (bytes "$aws/things/MyThing/defender/metrics/cbor") 0) 41
       (Some DefenderInvalidTopic) (Some NULL) (Some 0)
     = Some (DefenderSuccess,
             mkMatchOutputs (Some DefenderCborReportPublish)
               (Some (Ptr (bytes "$aws/things/MyThing/defender/metrics/cbor") 12))
               (Some 7))
  /\ exists id api,
       valid_api api = true /\ id <> [] /\ slash_free id = true
       /\ bytes "$aws/things/MyThing/defender/metrics/cbor"
          = bytes DEFENDER_API_PREFIX ++ id ++ bytes DEFENDER_API_BRIDGE
            ++ bytes (apiTopic api)
       /\ mkMatchOutputs (Some DefenderCborReportPublish)
            (Some (Ptr (bytes "$aws/things/MyThing/defender/metrics/cbor") 12))
            (Some 7)
          = mkMatchOutputs (Some api)
              (option_map
                 (fun _ => Ptr (bytes "$aws/things/MyThing/defender/metrics/cbor")
                             (0 + 12))
                 (Some NULL))
              (option_map (fun _ => Z.of_nat (length id)) (Some 0))
       /\ load_bytes (Ptr (bytes "$aws/things/MyThing/defender/metrics/cbor") (0 + 12))
            (Z.of_nat (length id))
          = Some id.
Proof.
  assert (H1 : load_bytes
                 (Ptr (bytes "$aws/things/MyThing/defender/metrics/cbor") 0) 41
               = Some (bytes "$aws/things/MyThing/defender/metrics/cbor"))
    by reflexivity.
  assert (H2 : 41 <= UINT16_MAX) by (unfold UINT16_MAX; lia).
  assert (H3 : Defender_MatchTopic
                 (Ptr (bytes "$aws/things/MyThing/defender/metrics/cbor") 0) 41
                 (Some DefenderInvalidTopic) (Some NULL) (Some 0)
               = Some (DefenderSuccess,
                       mkMatchOutputs (Some DefenderCborReportPublish)
                         (Some (Ptr (bytes "$aws/things/MyThing/defender/metrics/cbor")
                                  12))
                         (Some 7)))
    by reflexivity.
  exact (conj H1 (conj H2 (conj H3
    (X9_MatchTopic_success_sound _ 0 41 _ _ _ _ _ H1 H2 H3)))).
Defined.

(** X10: match, then build: when [Defender_MatchTopic] returns
    [DefenderSuccess] with an API, a thing name address and a thing name
    length of at most 128, [Defender_GetTopic] called with these three
    writes back the very bytes of the matched topic, and their number. *)
Theorem X10_match_then_build tobj tofs (topicLength : Z) (bs : list ascii)
    (a : DefenderTopic_t) (q0 : ptr) (n0 : Z)
    (api : DefenderTopic_t) (pThingName : ptr) (thingNameLength : Z)
    obj ofs (bufferLength l0 : Z) :
  load_bytes (Ptr tobj tofs) topicLength = Some bs ->
  topicLength <= UINT16_MAX ->
  Defender_MatchTopic (Ptr tobj tofs) topicLength (Some a) (Some q0) (Some n0)
  = Some (DefenderSuccess,
          mkMatchOutputs (Some api) (Some pThingName) (Some thingNameLength)) ->
  thingNameLength <= DEFENDER_THINGNAME_MAX_LENGTH ->
  in_bounds obj ofs bufferLength = true ->
  topicLength <= bufferLength ->
  exists obj',
    Defender_GetTopic (Ptr obj ofs) bufferLength pThingName thingNameLength
      api (Some l0)
    = Some (DefenderSuccess, Ptr obj' ofs, Some topicLength)
    /\ load_bytes (Ptr obj' ofs) topicLength = Some bs.
Proof.
  intros H Hsz Hcall Hmax Hb Hlen.
  destruct (Defender_MatchTopic_success_inv _ _ _ _ _ _ _ _ H Hsz Hcall)
    as (id & api' & -> & Hne & Hsf & Hv & Hout).
  cbn [option_map] in Hout. injection Hout as <- -> ->.
  pose proof (load_bytes_thing_name _ _ _ _ _ H) as Hid.
  assert (Hn : 1 <= Z.of_nat (length id) <= DEFENDER_THINGNAME_MAX_LENGTH)
    by (destruct id; [congruence|simpl length in *; lia]).
  assert (Hreq : requiredLength (Z.of_nat (length id)) api = topicLength).
  { rewrite (requiredLength_topic_of _ id _ Hv eq_refl).
    symmetry. now apply load_bytes_length in H. }
  rewrite <- Hreq in *.
  destruct (Defender_GetTopic_writes _ _ _ _ _ id _ l0 Hb Hid Hn Hv Hlen)
    as (pre & old & post & Hobj & Hofs & Hold & Hcall').
  eexists. split; [exact Hcall'|].
  apply load_bytes_at with (pre := pre) (post := post); trivial.
  now apply requiredLength_topic_of.
Qed.

Lemma X10_witness :
  load_bytes (Ptr (bytes "$aws/things/MyThing/defender/metrics/cbor") 0) 41
  = Some (bytes "$aws/things/MyThing/defender/metrics/cbor")
  /\ 41 <= UINT16_MAX
  /\ Defender_MatchTopic (Ptr (bytes "$aws/things/MyThing/defender/metrics/cbor") 0) 41
       (Some DefenderInvalidTopic) (Some NULL) (Some 0)
     = Some (DefenderSuccess,
             mkMatchOutputs (Some DefenderCborReportPublish)
               (Some (Ptr (bytes "$aws/things/MyThing/defender/metrics/cbor") 12))
               (Some 7))
  /\ 7 <= DEFENDER_THINGNAME_MAX_LENGTH
  /\ in_bounds example_buffer 0 64 = true
  /\ 41 <= 64
  /\ exists obj',
       Defender_GetTopic (Ptr example_buffer 0) 64
         (Ptr (bytes "$aws/things/MyThing/defender/metrics/cbor") 12) 7
         DefenderCborReportPublish (Some 0)
       = Some (DefenderSuccess, Ptr obj' 0, Some 41)
       /\ load_bytes (Ptr obj' 0) 41
          = Some (bytes "$aws/things/MyThing/defender/metrics/cbor").
Proof.
  assert (H1 : load_bytes
                 (Ptr (bytes "$aws/things/MyThing/defender/metrics/cbor") 0) 41
               = Some (bytes "$aws/things/MyThing/defender/metrics/cbor"))
    by reflexivity.
  assert (H2 : 41 <= UINT16_MAX) by (unfold UINT16_MAX; lia).
  assert (H3 : Defender_MatchTopic
                 (Ptr (bytes "$aws/things/MyThing/defender/metrics/cbor") 0) 41
                 (Some DefenderInvalidTopic) (Some NULL) (Some 0)
               = Some (DefenderSuccess,
                       mkMatchOutputs (Some DefenderCborReportPublish)
                         (Some (Ptr (bytes "$aws/things/MyThing/defender/metrics/cbor")
                                  12))
                         (Some 7)))
    by reflexivity.
  assert (H4 : 7 <= DEFENDER_THINGNAME_MAX_LENGTH)
    by (unfold DEFENDER_THINGNAME_MAX_LENGTH; lia).
  assert (H5 : in_bounds example_buffer 0 64 = true) by reflexivity.
  assert (H6 : 41 <= 64) by lia.
  exact (conj H1 (conj H2 (conj H3 (conj H4 (conj H5 (conj H6
    (X10_match_then_build _ 0 41 _ _ _ _ _ _ _ example_buffer 0 64 0
       H1 H2 H3 H4 H5 H6))))))).
Defined.

(** X11: memory safety of [Defender_MatchTopic]: when [pTopic] is
    [NULL] or valid for [topicLength] bytes, then for every choice of the
    three output pointers the call returns; the status is
    [DefenderSuccess], [DefenderNoMatch] or [DefenderBadParameter], it is
    [DefenderBadParameter] exactly when [pTopic] or [pOutApi] is [NULL],
    and then no output is written. *)
Theorem X11_MatchTopic_memory_safe (pTopic : ptr) (topicLength : Z)
    (pOutApi : option DefenderTopic_t) (ppOutThingName : option ptr)
    (pOutThingNameLength : option Z) :
  null_or_valid pTopic topicLength = true ->
  topicLength <= UINT16_MAX ->
  exists ret out,
    Defender_MatchTopic pTopic topicLength pOutApi ppOutThingName pOutThingNameLength
    = Some (ret, out)
    /\ (ret = DefenderSuccess \/ ret = DefenderNoMatch \/ ret = DefenderBadParameter)
    /\ (ret = DefenderBadParameter <-> pTopic = NULL \/ pOutApi = None)
    /\ (ret = DefenderBadParameter ->
        out = mkMatchOutputs pOutApi ppOutThingName pOutThingNameLength).
Proof.
  intros Hb Hsz.
  destruct pTopic as [|obj ofs].
  - do 2 eexists. split; [now apply Defender_MatchTopic_guard|]. tauto.
  - destruct pOutApi as [a|].
    + cbn [null_or_valid] in Hb. destruct (in_bounds_load _ _ _ Hb) as (bs & H).
      rewrite (Defender_MatchTopic_parse _ _ _ a _ _ H Hsz).
      destruct (parse_topic bs) as [[api k]|]; do 2 eexists;
        (split; [reflexivity|]);
        (split; [tauto|]);
        (split; [|discriminate]);
        (split; [discriminate|]);
        intros [?|?]; discriminate.
    + do 2 eexists. split; [now apply Defender_MatchTopic_guard|]. tauto.
Qed.

Lemma X11_witness :
  null_or_valid (Ptr empty_name_topic 0) 34 = true
  /\ 34 <= UINT16_MAX
  /\ exists ret out,
       Defender_MatchTopic (Ptr empty_name_topic 0) 34 (Some DefenderMaxTopic)
         None (Some 3)
       = Some (ret, out)
       /\ (ret = DefenderSuccess \/ ret = DefenderNoMatch
           \/ ret = DefenderBadParameter)
       /\ (ret = DefenderBadParameter <->
           Ptr empty_name_topic 0 = NULL \/ Some DefenderMaxTopic = None)
       /\ (ret = DefenderBadParameter ->
           out = mkMatchOutputs (Some DefenderMaxTopic) None (Some 3)).
Proof.
  assert (H1 : null_or_valid (Ptr empty_name_topic 0) 34 = true) by reflexivity.
  assert (H2 : 34 <= UINT16_MAX) by (unfold UINT16_MAX; lia).
  exact (conj H1 (conj H2
    (X11_MatchTopic_memory_safe (Ptr empty_name_topic 0) 34
       (Some DefenderMaxTopic) None (Some 3) H1 H2))).
Defined.

(** X12: [Defender_MatchTopic] looks at the [topicLength] bytes at
    [pTopic] and at nothing else: two topics with the same bytes, wherever
    they lie and whatever follows them, get the same status, the same API
    and the same thing name length. *)
Theorem X12_MatchTopic_depends_on_bytes_only (p1 p2 : ptr) (topicLength : Z)
    (bs : list ascii) (a : DefenderTopic_t) (ppOutThingName : option ptr)
    (pOutThingNameLength : option Z) :
  load_bytes p1 topicLength = Some bs ->
  load_bytes p2 topicLength = Some bs ->
  topicLength <= UINT16_MAX ->
  exists ret out1 out2,
    Defender_MatchTopic p1 topicLength (Some a) ppOutThingName pOutThingNameLength
    = Some (ret, out1)
    /\ Defender_MatchTopic p2 topicLength (Some a) ppOutThingName pOutThingNameLength
       = Some (ret, out2)
    /\ outApi out1 = outApi out2
    /\ outThingNameLength out1 = outThingNameLength out2.
Proof.
  intros H1 H2 Hsz.
  rewrite (Defender_MatchTopic_parse _ _ _ a _ _ H1 Hsz),
    (Defender_MatchTopic_parse _ _ _ a _ _ H2 Hsz).
  destruct (parse_topic bs) as [[api k]|]; do 3 eexists; repeat split.
Qed.

Lemma X12_witness :
  load_bytes (Ptr (bytes "$aws/things/T/defender/metrics/json") 0) 35
  = Some (bytes "$aws/things/T/defender/metrics/json")
  /\ load_bytes (Ptr (bytes "xx$aws/things/T/defender/metrics/json/accepted") 2) 35
     = Some (bytes "$aws/things/T/defender/metrics/json")
  /\ 35 <= UINT16_MAX
  /\ exists ret out1 out2,
       Defender_MatchTopic (Ptr (bytes "$aws/things/T/defender/metrics/json") 0) 35
         (Some DefenderInvalidTopic) (Some NULL) (Some 0)
       = Some (ret, out1)
       /\ Defender_MatchTopic
            (Ptr (bytes "xx$aws/things/T/defender/metrics/json/accepted") 2) 35
            (Some DefenderInvalidTopic) (Some NULL) (Some 0)
          = Some (ret, out2)
       /\ outApi out1 = outApi out2
       /\ outThingNameLength out1 = outThingNameLength out2.
Proof.
  assert (H1 : load_bytes (Ptr (bytes "$aws/things/T/defender/metrics/json") 0) 35
               = Some (bytes "$aws/things/T/defender/metrics/json")) by reflexivity.
  assert (H2 : load_bytes
                 (Ptr (bytes "xx$aws/things/T/defender/metrics/json/accepted") 2) 35
               = Some (bytes "$aws/things/T/defender/metrics/json")) by reflexivity.
  assert (H3 : 35 <= UINT16_MAX) by (unfold UINT16_MAX; lia).
  exact (conj H1 (conj H2 (conj H3
    (X12_MatchTopic_depends_on_bytes_only _ _ 35 _ DefenderInvalidTopic
       (Some NULL) (Some 0) H1 H2 H3)))).
Defined.

(** X13: a topic that does not begin with [$aws/things/], which
    includes every topic shorter than 12 bytes and the empty one, gets
    [DefenderNoMatch]; only [*pOutApi] is written. *)
Theorem X13_MatchTopic_without_prefix (pTopic : ptr) (topicLength : Z)
    (bs : list ascii) (a : DefenderTopic_t) (ppOutThingName : option ptr)
    (pOutThingNameLength : option Z) :
  load_bytes pTopic topicLength = Some bs ->
  topicLength <= UINT16_MAX ->
  (forall rest, bs <> bytes DEFENDER_API_PREFIX ++ rest) ->
  Defender_MatchTopic pTopic topicLength (Some a) ppOutThingName pOutThingNameLength
  = Some (DefenderNoMatch,
          mkMatchOutputs (Some DefenderInvalidTopic)
            ppOutThingName pOutThingNameLength).
Proof.
  intros H Hsz Hno.
  apply (Defender_MatchTopic_no_parse _ _ _ _ _ _ H Hsz).
  unfold parse_topic.
  destruct (starts_with (bytes DEFENDER_API_PREFIX) bs) eqn:Hp; [|reflexivity].
  apply starts_with_inv in Hp. now apply Hno in Hp.
Qed.

Lemma X13_witness :
  load_bytes (Ptr (bytes "$AWS/things/T/defender/metrics/json") 0) 35
  = Some (bytes "$AWS/things/T/defender/metrics/json")
  /\ 35 <= UINT16_MAX
  /\ (forall rest,
        bytes "$AWS/things/T/defender/metrics/json"
        <> bytes DEFENDER_API_PREFIX ++ rest)
  /\ Defender_MatchTopic (Ptr (bytes "$AWS/things/T/defender/metrics/json") 0) 35
       (Some DefenderJsonReportPublish) (Some NULL) (Some 0)
     = Some (DefenderNoMatch,
             mkMatchOutputs (Some DefenderInvalidTopic) (Some NULL) (Some 0)).
Proof.
  assert (H1 : load_bytes (Ptr (bytes "$AWS/things/T/defender/metrics/json") 0) 35
               = Some (bytes "$AWS/things/T/defender/metrics/json")) by reflexivity.
  assert (H2 : 35 <= UINT16_MAX) by (unfold UINT16_MAX; lia).
  assert (H3 : forall rest,
             bytes "$AWS/things/T/defender/metrics/json"
             <> bytes DEFENDER_API_PREFIX ++ rest)
    by (intros rest; simpl; discriminate).
  exact (conj H1 (conj H2 (conj H3
    (X13_MatchTopic_without_prefix _ 35 _ DefenderJsonReportPublish
       (Some NULL) (Some 0) H1 H2 H3)))).
Defined.

(** X14: a topic with an empty thing name, that is with a forward slash
    right after the prefix, gets [DefenderNoMatch] whatever follows. *)
Theorem X14_MatchTopic_empty_thing_name (pTopic : ptr) (topicLength : Z)
    (rest : list ascii) (a : DefenderTopic_t) (ppOutThingName : option ptr)
    (pOutThingNameLength : option Z) :
  load_bytes pTopic topicLength
  = Some (bytes DEFENDER_API_PREFIX ++ "/"%char :: rest) ->
  topicLength <= UINT16_MAX ->
  Defender_MatchTopic pTopic topicLength (Some a) ppOutThingName pOutThingNameLength
  = Some (DefenderNoMatch,
          mkMatchOutputs (Some DefenderInvalidTopic)
            ppOutThingName pOutThingNameLength).
Proof.
  intros H Hsz.
  apply (Defender_MatchTopic_no_parse _ _ _ _ _ _ H Hsz).
  unfold parse_topic. now rewrite starts_with_app, skipn_app_length.
Qed.

Lemma X14_witness :
  load_bytes (Ptr empty_name_topic 0) 34
  = Some (bytes DEFENDER_API_PREFIX ++ "/"%char :: bytes "defender/metrics/json")
  /\ 34 <= UINT16_MAX
  /\ Defender_MatchTopic (Ptr empty_name_topic 0) 34
       (Some DefenderJsonReportPublish) (Some NULL) (Some 0)
     = Some (DefenderNoMatch,
             mkMatchOutputs (Some DefenderInvalidTopic) (Some NULL) (Some 0)).
Proof.
  assert (H1 : load_bytes (Ptr empty_name_topic 0) 34
               = Some (bytes DEFENDER_API_PREFIX
                       ++ "/"%char :: bytes "defender/metrics/json"))
    by reflexivity.
  assert (H2 : 34 <= UINT16_MAX) by (unfold UINT16_MAX; lia).
  exact (conj H1 (conj H2
    (X14_MatchTopic_empty_thing_name _ 34 _ DefenderJsonReportPublish
       (Some NULL) (Some 0) H1 H2))).
Defined.

(** X15: a topic whose thing name is followed by something other than
    [/defender/metrics/] gets [DefenderNoMatch]. *)
Theorem X15_MatchTopic_wrong_bridge (pTopic : ptr) (topicLength : Z)
    (id rest : list ascii) (a : DefenderTopic_t) (ppOutThingName : option ptr)
    (pOutThingNameLength : option Z) :
  load_bytes pTopic topicLength
  = Some (bytes DEFENDER_API_PREFIX ++ id ++ "/"%char :: rest) ->
  topicLength <= UINT16_MAX ->
  slash_free id = true ->
  (forall r, "/"%char :: rest <> bytes DEFENDER_API_BRIDGE ++ r) ->
  Defender_MatchTopic pTopic topicLength (Some a) ppOutThingName pOutThingNameLength
  = Some (DefenderNoMatch,
          mkMatchOutputs (Some DefenderInvalidTopic)
            ppOutThingName pOutThingNameLength).
Proof.
  intros H Hsz Hsf Hno.
  apply (Defender_MatchTopic_no_parse _ _ _ _ _ _ H Hsz).
  unfold parse_topic. rewrite starts_with_app, skipn_app_length.
  rewrite (slash_index_app _ _ Hsf). cbn [slash_index].
  rewrite Ascii.eqb_refl, Nat.add_0_r, skipn_app_length.
  destruct (0 <? length id)%nat; [|reflexivity].
  destruct (starts_with (bytes DEFENDER_API_BRIDGE) ("/"%char :: rest)) eqn:Hb;
    [|reflexivity].
  apply starts_with_inv in Hb. now apply Hno in Hb.
Qed.

Lemma X15_witness :
  load_bytes (Ptr (bytes "$aws/things/T/shadow/update") 0) 27
  = Some (bytes DEFENDER_API_PREFIX ++ bytes "T" ++ "/"%char :: bytes "shadow/update")
  /\ 27 <= UINT16_MAX
  /\ slash_free (bytes "T") = true
  /\ (forall r, "/"%char :: bytes "shadow/update" <> bytes DEFENDER_API_BRIDGE ++ r)
  /\ Defender_MatchTopic (Ptr (bytes "$aws/things/T/shadow/update") 0) 27
       (Some DefenderJsonReportPublish) (Some NULL) (Some 0)
     = Some (DefenderNoMatch,
             mkMatchOutputs (Some DefenderInvalidTopic) (Some NULL) (Some 0)).
Proof.
  assert (H1 : load_bytes (Ptr (bytes "$aws/things/T/shadow/update") 0) 27
               = Some (bytes DEFENDER_API_PREFIX ++ bytes "T"
                       ++ "/"%char :: bytes "shadow/update")) by reflexivity.
  assert (H2 : 27 <= UINT16_MAX) by (unfold UINT16_MAX; lia).
  assert (H3 : slash_free (bytes "T") = true) by reflexivity.
  assert (H4 : forall r,
             "/"%char :: bytes "shadow/update" <> bytes DEFENDER_API_BRIDGE ++ r)
    by (intros r; simpl; discriminate).
  exact (conj H1 (conj H2 (conj H3 (conj H4
    (X15_MatchTopic_wrong_bridge _ 27 _ _ DefenderJsonReportPublish
       (Some NULL) (Some 0) H1 H2 H3 H4))))).
Defined.

(** X16: [extractThingNameLength] ends the thing name at the first
    forward slash: on remaining bytes that are a non-empty run without
    forward slash, then a forward slash, then anything, it returns
    [DefenderSuccess] and writes the length of that run. *)
Theorem X16_extractThingNameLength_first_slash (p : ptr) (n : Z)
    (id rest : list ascii) (v : Z) :
  load_bytes p n = Some (id ++ "/"%char :: rest) ->
  n <= UINT16_MAX ->
  id <> [] -> slash_free id = true ->
  extractThingNameLength p n (Some v)
  = Some (DefenderSuccess, Some (Z.of_nat (length id))).
Proof.
  intros H Hsz Hne Hsf.
  rewrite (extractThingNameLength_slash_index _ _ _ v H Hsz).
  rewrite (slash_index_app _ _ Hsf). cbn [slash_index].
  rewrite Ascii.eqb_refl, Nat.add_0_r.
  destruct id; [congruence|reflexivity].
Qed.

Lemma X16_witness :
  load_bytes (Ptr (bytes "$aws/things/a/b/c") 12) 5
  = Some (bytes "a" ++ "/"%char :: bytes "b/c")
  /\ 5 <= UINT16_MAX
  /\ bytes "a" <> []
  /\ slash_free (bytes "a") = true
  /\ extractThingNameLength (Ptr (bytes "$aws/things/a/b/c") 12) 5 (Some 0)
     = Some (DefenderSuccess, Some (Z.of_nat (length (bytes "a")))).
Proof.
  assert (H1 : load_bytes (Ptr (bytes "$aws/things/a/b/c") 12) 5
               = Some (bytes "a" ++ "/"%char :: bytes "b/c")) by reflexivity.
  assert (H2 : 5 <= UINT16_MAX) by (unfold UINT16_MAX; lia).
  assert (H3 : bytes "a" <> []) by discriminate.
  assert (H4 : slash_free (bytes "a") = true) by reflexivity.
  exact (conj H1 (conj H2 (conj H3 (conj H4
    (X16_extractThingNameLength_first_slash _ 5 _ _ 0 H1 H2 H3 H4))))).
Defined.

(** X17: [matchPrefix] returns [DefenderSuccess] exactly when the
    remaining bytes begin with [$aws/things/], and [DefenderNoMatch]
    otherwise, also when fewer than 12 bytes remain. *)
Theorem X17_matchPrefix_exact (p : ptr) (n : Z) (bs : list ascii) :
  load_bytes p n = Some bs ->
  exists ret,
    matchPrefix p n = Some ret
    /\ (ret = DefenderSuccess \/ ret = DefenderNoMatch)
    /\ (ret = DefenderSuccess <-> exists rest, bs = bytes DEFENDER_API_PREFIX ++ rest).
Proof.
  intros H. rewrite (matchPrefix_starts_with _ _ _ H).
  destruct (starts_with (bytes DEFENDER_API_PREFIX) bs) eqn:Hp;
    eexists; (split; [reflexivity|]); (split; [tauto|]).
  - split; [intros _|reflexivity]. eexists. now apply starts_with_inv.
  - split; [discriminate|]. intros [rest ->].
    rewrite starts_with_app in Hp. discriminate.
Qed.

Lemma X17_witness :
  load_bytes (Ptr (bytes "$aws/thing") 0) 10 = Some (bytes "$aws/thing")
  /\ exists ret,
       matchPrefix (Ptr (bytes "$aws/thing") 0) 10 = Some ret
       /\ (ret = DefenderSuccess \/ ret = DefenderNoMatch)
       /\ (ret = DefenderSuccess <->
           exists rest, bytes "$aws/thing" = bytes DEFENDER_API_PREFIX ++ rest).
Proof.
  assert (H1 : load_bytes (Ptr (bytes "$aws/thing") 0) 10
               = Some (bytes "$aws/thing")) by reflexivity.
  exact (conj H1 (X17_matchPrefix_exact _ 10 _ H1)).
Defined.

(** X18: [matchBridge] returns [DefenderSuccess] exactly when the
    remaining bytes begin with [/defender/metrics/], and
    [DefenderNoMatch] otherwise, also when fewer than 18 bytes remain. *)
Theorem X18_matchBridge_exact (p : ptr) (n : Z) (bs : list ascii) :
  load_bytes p n = Some bs ->
  exists ret,
    matchBridge p n = Some ret
    /\ (ret = DefenderSuccess \/ ret = DefenderNoMatch)
    /\ (ret = DefenderSuccess <-> exists rest, bs = bytes DEFENDER_API_BRIDGE ++ rest).
Proof.
  intros H. rewrite (matchBridge_starts_with _ _ _ H).
  destruct (starts_with (bytes DEFENDER_API_BRIDGE) bs) eqn:Hp;
    eexists; (split; [reflexivity|]); (split; [tauto|]).
  - split; [intros _|reflexivity]. eexists. now apply starts_with_inv.
  - split; [discriminate|]. intros [rest ->].
    rewrite starts_with_app in Hp. discriminate.
Qed.

Lemma X18_witness :
  load_bytes (Ptr (bytes "$aws/things/T/defender/metrics/json") 13) 22
  = Some (bytes "/defender/metrics/json")
  /\ exists ret,
       matchBridge (Ptr (bytes "$aws/things/T/defender/metrics/json") 13) 22
       = Some ret
       /\ (ret = DefenderSuccess \/ ret = DefenderNoMatch)
       /\ (ret = DefenderSuccess <->
           exists rest,
             bytes "/defender/metrics/json" = bytes DEFENDER_API_BRIDGE ++ rest).
Proof.
  assert (H1 : load_bytes (Ptr (bytes "$aws/things/T/defender/metrics/json") 13) 22
               = Some (bytes "/defender/metrics/json")) by reflexivity.
  exact (conj H1 (X18_matchBridge_exact _ 22 _ H1)).
Defined.

(** X19: topics decode uniquely: when [Defender_GetTopic] writes the
    same bytes for two thing names without forward slash and two valid
    APIs, the two thing names are equal and the two APIs are equal. *)
Theorem X19_GetTopic_injective obj ofs (bufferLength : Z)
    (pName1 pName2 : ptr) (n1 n2 : Z) (id1 id2 : list ascii)
    (api1 api2 : DefenderTopic_t) (l0 : Z)
    (p1 p2 : ptr) (topicLength : Z) (topic : list ascii) :
  in_bounds obj ofs bufferLength = true ->
  load_bytes pName1 n1 = Some id1 ->
  load_bytes pName2 n2 = Some id2 ->
  slash_free id1 = true -> slash_free id2 = true ->
  Defender_GetTopic (Ptr obj ofs) bufferLength pName1 n1 api1 (Some l0)
  = Some (DefenderSuccess, p1, Some topicLength) ->
  Defender_GetTopic (Ptr obj ofs) bufferLength pName2 n2 api2 (Some l0)
  = Some (DefenderSuccess, p2, Some topicLength) ->
  load_bytes p1 topicLength = Some topic ->
  load_bytes p2 topicLength = Some topic ->
  api1 = api2 /\ id1 = id2.
Proof.
  intros Hb Hid1 Hid2 Hsf1 Hsf2 Hc1 Hc2 Hl1 Hl2.
  assert (Hshape : forall pName n id api p,
             load_bytes pName n = Some id ->
             Defender_GetTopic (Ptr obj ofs) bufferLength pName n api (Some l0)
             = Some (DefenderSuccess, p, Some topicLength) ->
             load_bytes p topicLength = Some topic ->
             topic = topic_of id api /\ id <> [] /\ valid_api api = true).
  { intros pName n id api p Hid Hc Hl.
    destruct ((n =? 0) || (DEFENDER_THINGNAME_MAX_LENGTH <? n)
              || (topic_value api <=? topic_value DefenderInvalidTopic)
              || (topic_value DefenderMaxTopic <=? topic_value api)) eqn:G.
    - rewrite Defender_GetTopic_guard in Hc; [discriminate|].
      cbn [is_null orb]. rewrite (load_bytes_not_null _ _ _ Hid). cbn [orb].
      now rewrite G.
    - rewrite !orb_false_iff in G. destruct G as (((G1 & G2) & G3) & G4).
      pose proof (valid_api_true _ G3 G4) as Hv.
      apply Z.eqb_neq in G1. apply Z.ltb_ge in G2.
      pose proof (load_bytes_length _ _ _ Hid) as Hlen.
      assert (Hn : 1 <= n <= DEFENDER_THINGNAME_MAX_LENGTH) by lia.
      destruct (Z.le_gt_cases (requiredLength n api) bufferLength) as [Hle|Hgt].
      + destruct (Defender_GetTopic_writes _ _ _ _ _ id _ l0 Hb Hid Hn Hv Hle)
          as (pre & old & post & Hobj & Hofs & Hold & Hcall).
        rewrite Hcall in Hc. injection Hc as <- <-.
        rewrite (load_bytes_at _ _ _ pre (topic_of id api) post eq_refl Hofs) in Hl
          by now apply requiredLength_topic_of.
        injection Hl as <-. repeat split; trivial.
        intros ->. simpl in Hlen. lia.
      + rewrite Defender_GetTopic_too_small in Hc; trivial; [discriminate|].
        now rewrite (load_bytes_not_null _ _ _ Hid). }
  destruct (Hshape _ _ _ _ _ Hid1 Hc1 Hl1) as (Ht1 & Hne1 & Hv1).
  destruct (Hshape _ _ _ _ _ Hid2 Hc2 Hl2) as (Ht2 & Hne2 & Hv2).
  pose proof (parse_topic_of _ _ Hne1 Hsf1 Hv1) as P1.
  pose proof (parse_topic_of _ _ Hne2 Hsf2 Hv2) as P2.
  rewrite <- Ht1 in P1. rewrite <- Ht2, P1 in P2. injection P2 as <- Hlen.
  split; [reflexivity|].
  rewrite Ht1 in Ht2. unfold topic_of in Ht2.
  apply app_inv_head in Ht2. now apply app_inv_tail in Ht2.
Qed.

Lemma X19_witness :
  in_bounds example_buffer 0 64 = true
  /\ load_bytes (Ptr example_thing 0) 7 = Some example_thing
  /\ load_bytes (Ptr (bytes "xMyThingy") 1) 7 = Some example_thing
  /\ slash_free example_thing = true
  /\ Defender_GetTopic (Ptr example_buffer 0) 64 (Ptr example_thing 0) 7
       DefenderJsonReportPublish (Some 0)
     = Some (DefenderSuccess,
             Ptr (bytes "$aws/things/MyThing/defender/metrics/json"
                  ++ repeat "x"%char 23) 0, Some 41)
  /\ Defender_GetTopic (Ptr example_buffer 0) 64 (Ptr (bytes "xMyThingy") 1) 7
       DefenderJsonReportPublish (Some 0)
     = Some (DefenderSuccess,
             Ptr (bytes "$aws/things/MyThing/defender/metrics/json"
                  ++ repeat "x"%char 23) 0, Some 41)
  /\ load_bytes (Ptr (bytes "$aws/things/MyThing/defender/metrics/json"
                      ++ repeat "x"%char 23) 0) 41
     = Some (bytes "$aws/things/MyThing/defender/metrics/json")
  /\ DefenderJsonReportPublish = DefenderJsonReportPublish
  /\ example_thing = example_thing.
Proof.
  assert (H1 : in_bounds example_buffer 0 64 = true) by reflexivity.
  assert (H2 : load_bytes (Ptr example_thing 0) 7 = Some example_thing) by reflexivity.
  assert (H3 : load_bytes (Ptr (bytes "xMyThingy") 1) 7 = Some example_thing)
    by reflexivity.
  assert (H4 : slash_free example_thing = true) by reflexivity.
  assert (H5 : Defender_GetTopic (Ptr example_buffer 0) 64 (Ptr example_thing 0) 7
                 DefenderJsonReportPublish (Some 0)
               = Some (DefenderSuccess,
                       Ptr (bytes "$aws/things/MyThing/defender/metrics/json"
                            ++ repeat "x"%char 23) 0, Some 41)) by reflexivity.
  assert (H6 : Defender_GetTopic (Ptr example_buffer 0) 64
                 (Ptr (bytes "xMyThingy") 1) 7 DefenderJsonReportPublish (Some 0)
               = Some (DefenderSuccess,
                       Ptr (bytes "$aws/things/MyThing/defender/metrics/json"
                            ++ repeat "x"%char 23) 0, Some 41)) by reflexivity.
  assert (H7 : load_bytes (Ptr (bytes "$aws/things/MyThing/defender/metrics/json"
                                ++ repeat "x"%char 23) 0) 41
               = Some (bytes "$aws/things/MyThing/defender/metrics/json"))
    by reflexivity.
  exact (conj H1 (conj H2 (conj H3 (conj H4 (conj H5 (conj H6 (conj H7
    (X19_GetTopic_injective example_buffer 0 64 _ _ 7 7 _ _ _ _ 0 _ _ 41 _
       H1 H2 H3 H4 H4 H5 H6 H7 H7)))))))).
Defined.

(** X20: what [matchApi] writes: on the string of a valid API it returns
    [DefenderSuccess] and stores that API in [*pOutApi]; whenever it returns
    [DefenderSuccess] the stored API is valid and the remaining bytes are
    its string; when it returns [DefenderNoMatch] it leaves [*pOutApi] as
    it was. *)
Theorem X20_matchApi_output (p : ptr) (n : Z) (bs : list ascii)
    (a : DefenderTopic_t) :
  load_bytes p n = Some bs ->
  exists ret slot,
    matchApi p n (Some a) = Some (ret, slot)
    /\ (forall api, valid_api api = true -> bs = bytes (apiTopic api) ->
        ret = DefenderSuccess /\ slot = Some api)
    /\ (ret = DefenderSuccess ->
        exists api, valid_api api = true /\ slot = Some api
                    /\ bs = bytes (apiTopic api))
    /\ (ret = DefenderNoMatch -> slot = Some a).
Proof.
  intros H. rewrite (matchApi_lookup_api _ _ _ a H).
  destruct (lookup_api bs) as [api|] eqn:Hl; do 2 eexists;
    (split; [reflexivity|]).
  - pose proof (lookup_api_inv _ _ Hl) as [Hv ->]. split; [|split].
    + intros api' Hv' Heq. rewrite Heq, (lookup_api_apiTopic _ Hv') in Hl.
      now injection Hl as ->.
    + intros _. now exists api.
    + discriminate.
  - split; [|split].
    + intros api Hv ->. rewrite (lookup_api_apiTopic _ Hv) in Hl. discriminate.
    + discriminate.
    + reflexivity.
Qed.

Lemma X20_witness :
  load_bytes (Ptr (bytes "$aws/things/T/defender/metrics/json/rejected") 31) 13
  = Some (bytes "json/rejected")
  /\ exists ret slot,
       matchApi (Ptr (bytes "$aws/things/T/defender/metrics/json/rejected") 31) 13
         (Some DefenderInvalidTopic)
       = Some (ret, slot)
       /\ (forall api, valid_api api = true ->
           bytes "json/rejected" = bytes (apiTopic api) ->
           ret = DefenderSuccess /\ slot = Some api)
       /\ (ret = DefenderSuccess ->
           exists api, valid_api api = true /\ slot = Some api
                       /\ bytes "json/rejected" = bytes (apiTopic api))
       /\ (ret = DefenderNoMatch -> slot = Some DefenderInvalidTopic).
Proof.
  assert (H1 : load_bytes
                 (Ptr (bytes "$aws/things/T/defender/metrics/json/rejected") 31) 13
               = Some (bytes "json/rejected")) by reflexivity.
  exact (conj H1 (X20_matchApi_output _ 13 _ DefenderInvalidTopic H1)).
Defined.

(** X21: no trailing bytes: a well-formed topic followed by at least one
    more byte that is not a forward slash, such as a terminating NUL
    counted in [topicLength], gets [DefenderNoMatch]. *)
Theorem X21_MatchTopic_trailing_byte (pTopic : ptr) (topicLength : Z)
    (id : list ascii) (api : DefenderTopic_t) (c : ascii) (extra : list ascii)
    (a : DefenderTopic_t) (ppOutThingName : option ptr)
    (pOutThingNameLength : option Z) :
  load_bytes pTopic topicLength
  = Some (bytes DEFENDER_API_PREFIX ++ id ++ bytes DEFENDER_API_BRIDGE
          ++ bytes (apiTopic api) ++ c :: extra) ->
  topicLength <= UINT16_MAX ->
  slash_free id = true ->
  valid_api api = true ->
  c <> "/"%char ->
  Defender_MatchTopic pTopic topicLength (Some a) ppOutThingName pOutThingNameLength
  = Some (DefenderNoMatch,
          mkMatchOutputs (Some DefenderInvalidTopic)
            ppOutThingName pOutThingNameLength).
Proof.
  intros H Hsz Hsf Hv Hc.
  apply (Defender_MatchTopic_no_parse _ _ _ _ _ _ H Hsz).
  unfold parse_topic. rewrite starts_with_app, skipn_app_length.
  rewrite (slash_index_app _ _ Hsf).
  change (slash_index (bytes DEFENDER_API_BRIDGE ++ bytes (apiTopic api) ++ c :: extra))
    with 0%nat.
  rewrite Nat.add_0_r, skipn_app_length.
  destruct (0 <? length id)%nat; [|reflexivity].
  rewrite starts_with_app, skipn_app_length.
  destruct (lookup_api (bytes (apiTopic api) ++ c :: extra)) as [api'|] eqn:Hl;
    [exfalso|reflexivity].
  apply lookup_api_inv in Hl. destruct Hl as [Hv' Heq].
  destruct api; try discriminate Hv; destruct api'; try discriminate Hv';
    vm_compute in Heq; congruence.
Qed.

Lemma X21_witness :
  load_bytes (Ptr (bytes "$aws/things/T/defender/metrics/json" ++ [zero]) 0) 36
  = Some (bytes DEFENDER_API_PREFIX ++ bytes "T" ++ bytes DEFENDER_API_BRIDGE
          ++ bytes (apiTopic DefenderJsonReportPublish) ++ zero :: [])
  /\ 36 <= UINT16_MAX
  /\ slash_free (bytes "T") = true
  /\ valid_api DefenderJsonReportPublish = true
  /\ zero <> "/"%char
  /\ Defender_MatchTopic
       (Ptr (bytes "$aws/things/T/defender/metrics/json" ++ [zero]) 0) 36
       (Some DefenderJsonReportPublish) (Some NULL) (Some 0)
     = Some (DefenderNoMatch,
             mkMatchOutputs (Some DefenderInvalidTopic) (Some NULL) (Some 0)).
Proof.
  assert (H1 : load_bytes
                 (Ptr (bytes "$aws/things/T/defender/metrics/json" ++ [zero]) 0) 36
               = Some (bytes DEFENDER_API_PREFIX ++ bytes "T"
                       ++ bytes DEFENDER_API_BRIDGE
                       ++ bytes (apiTopic DefenderJsonReportPublish) ++ zero :: []))
    by reflexivity.
  assert (H2 : 36 <= UINT16_MAX) by (unfold UINT16_MAX; lia).
  assert (H3 : slash_free (bytes "T") = true) by reflexivity.
  assert (H4 : valid_api DefenderJsonReportPublish = true) by reflexivity.
  assert (H5 : zero <> "/"%char) by discriminate.
  exact (conj H1 (conj H2 (conj H3 (conj H4 (conj H5
    (X21_MatchTopic_trailing_byte _ 36 _ _ _ _ DefenderJsonReportPublish
       (Some NULL) (Some 0) H1 H2 H3 H4 H5)))))).
Defined.
